(** * YaMDb: the CSV import command and the API views

    A shallow embedding of
      - [api/management/commands/import_csv.py] (module [ImportCsv]) and
      - [api/views.py] (module [Views]),
    followed by the properties of both.

    Django's ORM, the CSV reader and the REST framework are libraries the
    two files call into.  The importer is written against an interface
    ([ORM]) that lists the calls it makes; the views work on a store of
    typed tables. *)

From Stdlib Require Import QArith.
From Stdlib Require Floats.PrimFloat Floats.SpecFloat Floats.FloatOps.
From Stdlib Require Numbers.Cyclic.Int63.Uint63.
From stdpp Require Import base option list sorting strings gmap.

Open Scope string_scope.
Open Scope list_scope.

(** ** Python strings *)

Module Py.

(** [sub in s] *)
Fixpoint contains (sub s : string) : bool :=
  String.prefix sub s ||
  match s with
  | EmptyString => false
  | String _ s' => contains sub s'
  end.

(** A [str] is a sequence of characters; a [string] holds the UTF-8
    bytes the file had them in.  A character begins at every byte that
    is not a continuation byte (binary 10xxxxxx). *)
Definition is_continuation (b : Ascii.ascii) : bool :=
  match b with
  | Ascii.Ascii _ _ _ _ _ _ b6 b7 => b7 && negb b6
  end.

(** The characters among some bytes: the bytes they begin at. *)
Definition characters (bytes : list Ascii.ascii) : nat :=
  length (filter (fun b => is_continuation b = false) bytes).

(** [len(s)]: the number of characters. *)
Definition len (s : string) : nat :=
  characters (String.list_ascii_of_string s).

(** The bytes of a text from its last one backwards, without the last
    character: its continuation bytes and the byte it begins at. *)
Fixpoint drop_char (rev_bytes : list Ascii.ascii) : list Ascii.ascii :=
  match rev_bytes with
  | [] => []
  | b :: rest => if is_continuation b then drop_char rest else rest
  end.

(** [s[:-n]]: everything but the last [n] characters; empty when [s] is
    shorter than [n]. *)
Definition drop_last (n : nat) (s : string) : string :=
  String.string_of_list_ascii
    (reverse (Nat.iter n drop_char (reverse (String.list_ascii_of_string s)))).

(** [s.endswith(suffix)] *)
Definition endswith (s suffix : string) : bool :=
  (String.length suffix <=? String.length s)%nat &&
  String.eqb
    (String.substring (String.length s - String.length suffix)
       (String.length suffix) s)
    suffix.

(** [s.removesuffix(suffix)] *)
Definition removesuffix (s suffix : string) : string :=
  if endswith s suffix
  then String.substring 0 (String.length s - String.length suffix) s
  else s.

End Py.

(** ** [api/management/commands/import_csv.py] *)

Module ImportCsv.

(** The model classes imported at the top of the file. *)
Inductive Model := User | Category | Genre | Title | Review | Comment.

#[global] Instance Model_eq_dec : EqDecision Model.
Proof. solve_decision. Defined.

(** Exceptions that can leave [handle].  [KeyError] is the one the
    command raises itself; the others come from [open] and the ORM. *)
Inductive exn :=
| FileNotFoundError (path : string)
| KeyError (msg : string)
| DoesNotExist (model : Model) (id : string)
| FieldDoesNotExist (model : Model) (field : string)
| OtherError (name : string).

#[global] Instance exn_eq_dec : EqDecision exn.
Proof. solve_decision. Defined.

Definition result (A : Type) : Type := exn + A.

#[global] Instance result_ret : MRet result := fun _ x => inr x.
#[global] Instance result_bind : MBind result := fun _ _ f m =>
  match m with
  | inl e => inl e
  | inr x => f x
  end.

Definition CSV_ROOT : string := "static/data/".

(** [FILE_MODEL]: a dict, kept as the list of its items because
    [handle] iterates over it in insertion order. *)
Definition FILE_MODEL : list (string * Model) :=
  [ ("users.csv", User);
    ("category.csv", Category);
    ("genre.csv", Genre);
    ("titles.csv", Title);
    ("review.csv", Review);
    ("comments.csv", Comment) ].

(** [FILE_MODEL.keys()] *)
Definition FILE_MODEL_keys : list string := FILE_MODEL.*1.

(** [FILE_MODEL[csv_file]] *)
Fixpoint dict_get {V} (d : list (string * V)) (k : string) : option V :=
  match d with
  | [] => None
  | (k', v) :: d' => if String.eqb k' k then Some v else dict_get d' k
  end.

Definition FK_FIELDS : list string :=
  [ "author"; "review"; "title"; "category"; "genre" ].

(** A keyword argument of a model constructor: the text of a cell, or
    the instance a foreign key was resolved to. *)
Inductive Val (Obj : Type) :=
| Plain (value : string)
| Related (o : Obj).
Arguments Plain {Obj} value.
Arguments Related {Obj} o.

(** What the importer asks of Django's ORM. *)
Class ORM := {
  (** model instances *)
  Obj : Type;
  (** the database *)
  Store : Type;
  (** [model._meta.get_field(field).remote_field.model] *)
  remote_field_model : Model -> string -> result Model;
  (** [fk_model.objects.get(id=value)] *)
  objects_get : Store -> Model -> string -> result Obj;
  (** [model] called with [kwargs] as its keyword arguments *)
  model_init : Model -> gmap string (Val Obj) -> result Obj;
  (** [model.objects.bulk_create(models)]: one transaction, so a
      failure leaves the database as it was *)
  bulk_create : Store -> Model -> list Obj -> result Store
}.

(** One row of a [DictReader]: the items of the dict, in header order. *)
Abbreviation Row := (list (string * string)).

(** The files under [CSV_ROOT], by path, as [DictReader] reads them. *)
Abbreviation Files := (gmap string (list Row)).

(** The database and the lines printed so far. *)
Record World `{ORM} := mkWorld {
  store : Store;
  stdout : list string
}.

Section Importer.
Context `{ORM}.
Variable files : Files.

(** Lines 49-50: the name a column is filed under. *)
Definition column_field (field : string) : string :=
  if Py.contains "_id" field then Py.drop_last 3 field else field.

(** Lines 49-57: one cell of a row. *)
Definition importer_cell (st : Store) (model : Model)
    (field value : string) : result (string * Val Obj) :=
  let field := column_field field in
  if bool_decide (field ∈ FK_FIELDS) then
    fk_model ← remote_field_model model field;
    o ← objects_get st fk_model value;
    mret (field, Related o)
  else
    mret (field, Plain value).

(** Lines 48-57: the loop over [row.items()], filling [kwargs]. *)
Fixpoint importer_row (st : Store) (model : Model) (items : Row)
    (kwargs : gmap string (Val Obj)) : result (gmap string (Val Obj)) :=
  match items with
  | [] => mret kwargs
  | (field, value) :: items' =>
      kv ← importer_cell st model field value;
      importer_row st model items' (<[kv.1 := kv.2]> kwargs)
  end.

(** Lines 46-58: the loop over the rows, appending to [models]. *)
Fixpoint importer_rows (st : Store) (model : Model) (data : list Row)
    (models : list Obj) : result (list Obj) :=
  match data with
  | [] => mret models
  | row :: data' =>
      kwargs ← importer_row st model row ∅;
      o ← model_init model kwargs;
      importer_rows st model data' (models ++ [o])
  end.

(** The double quote character. *)
Definition dquote : string := String (Ascii.ascii_of_nat 34) "".

Definition success_message (csv_file : string) : string :=
  "Successfully imported file " +:+ dquote +:+ csv_file +:+ dquote.

(** Lines 42-60. *)
Definition importer (csv_file : string) (model : Model) (w : World)
    : World * result () :=
  let url := CSV_ROOT +:+ csv_file in
  match files !! url with
  | None => (w, inl (FileNotFoundError url))
  | Some data =>
      match importer_rows (store w) model data [] with
      | inl e => (w, inl e)
      | inr models =>
          match bulk_create (store w) model models with
          | inl e => (w, inl e)
          | inr st' =>
              (mkWorld _ st' (stdout w ++ [success_message csv_file]),
               inr ())
          end
      end
  end.

Definition unknown_file (csv_file : string) : exn :=
  KeyError (dquote +:+ csv_file +:+ dquote +:+ "| Неизвестное имя файла").

(** Lines 63-67: the loop over the file names given. *)
Fixpoint handle_named (csv_files : list string) (w : World)
    : World * result () :=
  match csv_files with
  | [] => (w, inr ())
  | csv_file :: rest =>
      if bool_decide (csv_file ∈ FILE_MODEL_keys) then
        match dict_get FILE_MODEL csv_file with
        | None => (w, inl (KeyError csv_file))
        | Some model =>
            match importer csv_file model w with
            | (w', inr _) => handle_named rest w'
            | (w', inl e) => (w', inl e)
            end
        end
      else (w, inl (unknown_file csv_file))
  end.

(** Lines 69-70: the loop over [FILE_MODEL.items()]. *)
Fixpoint handle_all (items : list (string * Model)) (w : World)
    : World * result () :=
  match items with
  | [] => (w, inr ())
  | (csv_file, model) :: rest =>
      match importer csv_file model w with
      | (w', inr _) => handle_all rest w'
      | (w', inl e) => (w', inl e)
      end
  end.

(** Lines 62-70: [handle], with [options["csv_file"]] as argument. *)
Definition handle (csv_file : list string) (w : World)
    : World * result () :=
  match csv_file with
  | [] => handle_all FILE_MODEL w
  | _ :: _ => handle_named csv_file w
  end.

(** A row with a foreign-key cell whose id is not in the table of the
    model the field points to. *)
Definition dangling_reference (st : Store) (model : Model) (row : Row)
    : Prop :=
  exists field value fk_model,
    (field, value) ∈ row /\
    column_field field ∈ FK_FIELDS /\
    remote_field_model model (column_field field) = inr fk_model /\
    objects_get st fk_model value = inl (DoesNotExist fk_model value).

(** The rows of a file have no other defect than ids that do not exist:
    a cell that fails fails with [DoesNotExist], and the constructor
    accepts every row whose cells were resolved. *)
Definition only_lookup_failures (st : Store) (model : Model)
    (data : list Row) : Prop :=
  forall row, row ∈ data ->
    (forall field value e, (field, value) ∈ row ->
       importer_cell st model field value = inl e ->
       exists fk_model id, e = DoesNotExist fk_model id) /\
    (forall kwargs, importer_row st model row ∅ = inr kwargs ->
       exists o, model_init model kwargs = inr o).

(** The rule "a column is a foreign key exactly when its name ends in
    [_id]", for one cell: such a column is resolved under the name
    without the suffix, any other column is passed through. *)
Definition resolves_by_suffix (st : Store) (model : Model)
    (field value : string) : Prop :=
  importer_cell st model field value =
  if Py.endswith field "_id" then
    let name := Py.removesuffix field "_id" in
    fk_model ← remote_field_model model name;
    o ← objects_get st fk_model value;
    mret (name, Related o)
  else
    mret (field, Plain value).

End Importer.

End ImportCsv.

(** ** [api/views.py] *)

Module Views.

(** *** The records of the store

    Modelled from the spec: [users/models.py] and [reviews/models.py]
    are not among the sources; the records carry the fields the data
    model of the specification lists (creation times left out). *)

Inductive Role := USER | MODERATOR | ADMIN.

#[global] Instance Role_eq_dec : EqDecision Role.
Proof. solve_decision. Defined.

Record User := mkUser {
  user_id : Z;
  username : string;
  email : string;
  role : Role;
  bio : string;
  first_name : string;
  last_name : string;
  is_superuser : bool
}.

Record Title := mkTitle {
  title_id : Z;
  title_name : string;
  title_year : Z;
  title_description : string;
  title_category : option Z
}.

Record Review := mkReview {
  review_id : Z;
  review_title : Z;
  review_author : Z;
  review_text : string;
  review_score : Z
}.

Record Comment := mkComment {
  comment_id : Z;
  comment_review : Z;
  comment_author : Z;
  comment_text : string
}.

#[global] Instance User_eq_dec : EqDecision User.
Proof. solve_decision. Defined.
#[global] Instance Title_eq_dec : EqDecision Title.
Proof. solve_decision. Defined.
#[global] Instance Review_eq_dec : EqDecision Review.
Proof. solve_decision. Defined.
#[global] Instance Comment_eq_dec : EqDecision Comment.
Proof. solve_decision. Defined.

(** A mail handed to [send_mail]. *)
Record Mail := mkMail {
  mail_subject : string;
  mail_message : string;
  mail_from : string;
  mail_to : list string
}.

(** The tables the views touch, and the mails sent. *)
Record DB := mkDB {
  users : list User;
  titles : list Title;
  reviews : list Review;
  comments : list Comment;
  outbox : list Mail
}.

(** Modelled from the spec: the derived flags of a user ([users/models.py]
    is not among the sources): "is_admin = role=admin OR superuser;
    is_moderator". *)
Definition is_admin (u : User) : bool :=
  bool_decide (role u = ADMIN) || is_superuser u.
Definition is_moderator (u : User) : bool :=
  bool_decide (role u = MODERATOR).

(** *** The ORM calls of the views *)

(** The three ways [Model.objects.get] can end. *)
Inductive Lookup (A : Type) :=
| Found (x : A)
| DoesNotExist
| MultipleObjectsReturned.
Arguments Found {A} x.
Arguments DoesNotExist {A}.
Arguments MultipleObjectsReturned {A}.

(** [Model.objects.get(...)], the keyword filters as a predicate. *)
Definition objects_get {A} (P : A -> Prop) `{forall x, Decision (P x)}
    (table : list A) : Lookup A :=
  match filter P table with
  | [] => DoesNotExist
  | [x] => Found x
  | _ :: _ :: _ => MultipleObjectsReturned
  end.

(** Exceptions raised inside a view. *)
Inductive exc :=
| ValidationError
| Http404
| NotAuthenticated
| PermissionDenied
| IntegrityError
| UncaughtMultipleObjectsReturned.

#[global] Instance exc_eq_dec : EqDecision exc.
Proof. solve_decision. Defined.

Definition result (A : Type) : Type := exc + A.

#[global] Instance result_ret : MRet result := fun _ x => inr x.
#[global] Instance result_bind : MBind result := fun _ _ f m =>
  match m with
  | inl e => inl e
  | inr x => f x
  end.

(** [get_object_or_404]: only [DoesNotExist] becomes a 404. *)
Definition get_object_or_404 {A} (P : A -> Prop)
    `{forall x, Decision (P x)} (table : list A) : result A :=
  match objects_get P table with
  | Found x => inr x
  | DoesNotExist => inl Http404
  | MultipleObjectsReturned => inl UncaughtMultipleObjectsReturned
  end.

(** The next value of an auto-incremented primary key, as a key that
    no stored row has: one more than the highest.  (The sequence of a
    database also skips the keys of deleted rows; the properties below
    use the key only as one that is not stored.) *)
Definition next_id (ids : list Z) : Z := (1 + foldr Z.max 0 ids)%Z.

(** Two answers of a query that sets no order: the same rows, in
    whatever order, or the same exception. *)
Definition same_rows {A} (x y : result (list A)) : Prop :=
  match x, y with
  | inr rows, inr rows' => rows ≡ₚ rows'
  | inl e, inl e' => e = e'
  | _, _ => False
  end.

(** *** Responses *)

Record Response := mkResponse {
  status : nat;
  data : list (string * string)
}.

#[global] Instance Response_eq_dec : EqDecision Response.
Proof. solve_decision. Defined.

Definition HTTP_200_OK : nat := 200.
Definition HTTP_201_CREATED : nat := 201.
Definition HTTP_204_NO_CONTENT : nat := 204.
Definition HTTP_400_BAD_REQUEST : nat := 400.
Definition HTTP_401_UNAUTHORIZED : nat := 401.
Definition HTTP_403_FORBIDDEN : nat := 403.
Definition HTTP_404_NOT_FOUND : nat := 404.
Definition HTTP_500_INTERNAL_SERVER_ERROR : nat := 500.

(** The framework's exception handler: the response an exception that
    leaves a view is turned into. *)
Definition exception_handler (e : exc) : Response :=
  match e with
  | ValidationError => mkResponse HTTP_400_BAD_REQUEST []
  | Http404 => mkResponse HTTP_404_NOT_FOUND []
  | NotAuthenticated => mkResponse HTTP_401_UNAUTHORIZED []
  | PermissionDenied => mkResponse HTTP_403_FORBIDDEN []
  | IntegrityError | UncaughtMultipleObjectsReturned =>
      mkResponse HTTP_500_INTERNAL_SERVER_ERROR []
  end.

Definition respond (r : result Response) : Response :=
  match r with
  | inl e => exception_handler e
  | inr resp => resp
  end.

(** *** What the views import *)

(** [request.data]: a JSON object of strings. *)
Abbreviation RequestData := (gmap string string).

Record TokenData := mkTokenData {
  td_username : string;
  td_confirmation_code : string
}.

Record SignUpData := mkSignUpData {
  sd_username : string;
  sd_email : string
}.

(** [PasswordResetTokenGenerator] and [AccessToken]. *)
Class Tokens := {
  make_token : User -> string;
  check_token : User -> string -> bool;
  (** [str(AccessToken.for_user(user))] *)
  AccessToken_for_user : User -> string
}.

(** The serializers of [api/serializers.py] the two auth views use:
    [None] when [is_valid] fails, the validated data otherwise.  The
    sign-up serializer validates against the users already stored. *)
Class Serializers := {
  GetJWTokenSerializer : RequestData -> option TokenData;
  GetCodeSerializer : RequestData -> option SignUpData;
  SignUpSerializer : list User -> RequestData -> option SignUpData
}.

Definition CODE_EMAIL : string := "confirmation_code@yamdb.yandex".

(** *** [GetJWTokenView] *)

Section GetJWTokenView.
Context `{Tokens} `{Serializers}.

(** Lines 46-74. *)
Definition GetJWTokenView_post (request_data : RequestData) (db : DB)
    : Response :=
  respond (
    match GetJWTokenSerializer request_data with
    | None => inl ValidationError
    | Some data =>
        match objects_get (fun u => username u = td_username data)
                (users db) with
        | DoesNotExist =>
            inr (mkResponse HTTP_404_NOT_FOUND
                   [("username", "This username does not exist!")])
        | MultipleObjectsReturned => inl UncaughtMultipleObjectsReturned
        | Found user =>
            if check_token user (td_confirmation_code data) then
              inr (mkResponse HTTP_201_CREATED
                     [("token", AccessToken_for_user user)])
            else
              inr (mkResponse HTTP_400_BAD_REQUEST
                     [("confirmation_code", "Wrong confirmation_code")])
        end
    end).

End GetJWTokenView.

(** *** [SignUpView] *)

Section SignUpView.
Context `{Tokens} `{Serializers}.

(** Modelled from the spec: [SignUpSerializer.save()] is not among the
    sources; it "creates a pending user record" from the validated
    data, with the default role. *)
Definition SignUpSerializer_save (data : SignUpData) (db : DB)
    : User * DB :=
  let user := mkUser (next_id (user_id <$> users db))
                (sd_username data) (sd_email data) USER
                "" "" "" false in
  (user,
   mkDB (users db ++ [user]) (titles db) (reviews db) (comments db)
        (outbox db)).

(** Lines 107-114, for a mail backend that delivers: the mail is
    handed to it and [send_mail] returns.  (With
    [fail_silently=False] a backend that raises ends the request after
    [serializer.save()]; that path is not part of this model.) *)
Definition send_code (user : User) (db : DB) : DB :=
  let code := make_token user in
  mkDB (users db) (titles db) (reviews db) (comments db)
       (outbox db ++
        [mkMail "Api_Yamdb confirmation_code"
                ("confirmation_code: " +:+ code)
                CODE_EMAIL [email user]]).

(** [serializer.data] of either serializer. *)
Definition signup_body (username email : string)
    : list (string * string) :=
  [("username", username); ("email", email)].

(** Lines 92-119. *)
Definition SignUpView_post (request_data : RequestData) (db : DB)
    : DB * Response :=
  match GetCodeSerializer request_data with
  | None => (db, exception_handler ValidationError)
  | Some data =>
      match objects_get
              (fun u => username u = sd_username data /\
                        email u = sd_email data)
              (users db) with
      | Found user =>
          (send_code user db,
           mkResponse HTTP_200_OK
             (signup_body (sd_username data) (sd_email data)))
      | MultipleObjectsReturned =>
          (db, exception_handler UncaughtMultipleObjectsReturned)
      | DoesNotExist =>
          match SignUpSerializer (users db) request_data with
          | None => (db, exception_handler ValidationError)
          | Some data' =>
              let '(user, db') := SignUpSerializer_save data' db in
              (send_code user db',
               mkResponse HTTP_200_OK
                 (signup_body (username user) (email user)))
          end
      end
  end.

End SignUpView.

(** *** [TitleViewSet] *)

(** The rows of [Title LEFT OUTER JOIN Review] for one title: one per
    review of the title, or a single row of NULLs on the review side. *)
Definition join_reviews (rs : list Review) (t : Title)
    : list (Title * option Review) :=
  match filter (fun r => review_title r = title_id t) rs with
  | [] => [(t, None)]
  | r :: rs' => (fun r => (t, Some r)) <$> r :: rs'
  end.

Definition left_join (ts : list Title) (rs : list Review)
    : list (Title * option Review) :=
  ts ≫= join_reviews rs.

(** An integer as a double, the way the database casts a sum or a
    count before it divides: exact up to 2^53 in size, the nearest
    double beyond (sums stay within 64 bits). *)
Definition float_of_Z (z : Z) : PrimFloat.float :=
  match z with
  | Z0 => PrimFloat.of_uint63 (Uint63.of_Z 0)
  | Zpos _ => PrimFloat.of_uint63 (Uint63.of_Z z)
  | Zneg p => PrimFloat.opp (PrimFloat.of_uint63 (Uint63.of_Z (Zpos p)))
  end.

(** [models.Avg] over an integer column: NULLs are skipped, and the
    result is NULL when nothing is left; otherwise it is a [float], the
    sum of the values divided by their number in double precision. *)
Definition Avg (column : list (option Z)) : option PrimFloat.float :=
  match omap id column with
  | [] => None
  | x :: xs =>
      Some (PrimFloat.div (float_of_Z (foldr Z.add 0%Z (x :: xs)))
                          (float_of_Z (Z.of_nat (length (x :: xs)))))
  end.

(** [.annotate(rating=models.Avg("reviews__score"))]: the joined rows
    are grouped by title id and the scores of each group averaged. *)
Definition annotate_rating (ts : list Title) (rs : list Review)
    : list (Title * option PrimFloat.float) :=
  (fun t : Title =>
     (t, Avg ((fun row : Title * option Review =>
                 review_score <$> row.2) <$>
              filter (fun row : Title * option Review =>
                        title_id row.1 = title_id t)
                     (left_join ts rs)))) <$> ts.

(** The order of [.order_by("id")]. *)
Definition by_id (a b : Title * option PrimFloat.float) : Prop :=
  (title_id a.1 <= title_id b.1)%Z.

#[global] Instance by_id_dec : RelDecision by_id.
Proof. intros a b. unfold by_id. apply _. Defined.

(** Lines 161-165: [TitleViewSet.queryset]. *)
Definition TitleViewSet_queryset (db : DB)
    : list (Title * option PrimFloat.float) :=
  merge_sort by_id (annotate_rating (titles db) (reviews db)).

(** The arithmetic mean of a list of scores; none for the empty list. *)
Definition mean (scores : list Z) : option Q :=
  match scores with
  | [] => None
  | _ :: _ =>
      Some (inject_Z (foldr Z.add 0%Z scores) /
            inject_Z (Z.of_nat (length scores)))%Q
  end.

(** Equality of ratings, up to the representation of the fraction. *)
Definition rating_eq (a b : option Q) : Prop :=
  match a, b with
  | None, None => True
  | Some x, Some y => (x == y)%Q
  | _, _ => False
  end.

(** The number a double stands for; none for infinities and NaN. *)
Definition exact_value (f : PrimFloat.float) : option Q :=
  match FloatOps.Prim2SF f with
  | SpecFloat.S754_zero _ => Some 0%Q
  | SpecFloat.S754_finite s m e =>
      let n := if s then Zneg m else Zpos m in
      Some (match e with
            | Z0 => n # 1
            | Zpos k => (n * 2 ^ Zpos k) # 1
            | Zneg k => n # (2 ^ k)
            end)
  | SpecFloat.S754_infinity _ | SpecFloat.S754_nan => None
  end.

(** The scores of the reviews of a title. *)
Definition scores_of (t : Title) (db : DB) : list Z :=
  review_score <$>
    filter (fun r => review_title r = title_id t) (reviews db).

(** The mean of a list of scores as one division of doubles rounds it;
    none for the empty list. *)
Definition rounded_mean (scores : list Z) : option PrimFloat.float :=
  match scores with
  | [] => None
  | _ :: _ =>
      Some (PrimFloat.div (float_of_Z (foldr Z.add 0%Z scores))
                          (float_of_Z (Z.of_nat (length scores))))
  end.

(** The rule "the rating of every title of the queryset is the
    arithmetic mean of the scores of its reviews, and absent without
    reviews", for one store. *)
Definition rating_is_mean (db : DB) : Prop :=
  forall t rating,
    (t, rating) ∈ TitleViewSet_queryset db ->
    rating_eq (rating ≫= exact_value) (mean (scores_of t db)).

(** *** Requests *)

Inductive Method := GET | HEAD | OPTIONS | POST | PUT | PATCH | DELETE.

#[global] Instance Method_eq_dec : EqDecision Method.
Proof. solve_decision. Defined.

Definition SAFE_METHODS : list Method := [GET; HEAD; OPTIONS].

(** [request.user]: [None] is the anonymous user. *)
Abbreviation Requester := (option User).

(** *** [SafeOrAuthorOrExceedingRoleOnly] *)

(** Modelled from the spec: [api/permissions.py] is not among the
    sources.  Section 4.2: read-only methods are always allowed; a
    mutating method is allowed iff the requester is the resource's
    author, or the requester's role is moderator or admin, or the
    requester is a superuser. *)
Definition has_object_permission (method : Method)
    (request_user : Requester) (author : Z) : bool :=
  bool_decide (method ∈ SAFE_METHODS) ||
  match request_user with
  | None => false
  | Some u =>
      bool_decide (user_id u = author) ||
      bool_decide (role u = MODERATOR) ||
      bool_decide (role u = ADMIN) ||
      is_superuser u
  end.

(** Modelled from the spec: the view-level check of the same class
    ([api/permissions.py] is not among the sources).  Section 6:
    "anonymous access read-only everywhere except auth endpoints". *)
Definition has_permission (method : Method) (request_user : Requester)
    : bool :=
  bool_decide (method ∈ SAFE_METHODS) || bool_decide (is_Some request_user).

(** The framework's [permission_denied]: 401 for a request that carries
    no identity, 403 otherwise. *)
Definition permission_denied (request_user : Requester) : exc :=
  match request_user with
  | Some _ => PermissionDenied
  | None => NotAuthenticated
  end.

(** *** The read actions of [TitleViewSet] *)

Section TitleViewSet.
(** What the view takes from files that are not among the sources: the
    permission class [AdminOrSuperuserOnly | ReadOnly], the filter set
    [TitleFilter] with the query parameters of the request applied,
    [PAGE_SIZE] of the settings ([None]: no pagination) and
    [TitleReadSerializer]. *)
Context {TitleData : Type}.
Variable TitlePermission : Method -> Requester -> bool.
Variable TitleObjectPermission : Method -> Requester -> Title -> bool.
Variable TitleFilter : Title * option PrimFloat.float -> bool.
Variable PAGE_SIZE : option positive.
Variable TitleReadSerializer : Title * option PrimFloat.float -> TitleData.

(** The framework's [filter_queryset] over the queryset of lines 161-165. *)
Definition TitleViewSet_filter_queryset (db : DB)
    : list (Title * option PrimFloat.float) :=
  filter (fun row => TitleFilter row = true) (TitleViewSet_queryset db).

(** [PageNumberPagination.paginate_queryset]: pages count from 1, and
    a page past the last one is not found, the first page of an empty
    result apart. *)
Definition paginate_queryset {A} (page : positive) (rows : list A)
    : result (list A) :=
  match PAGE_SIZE with
  | None => mret rows
  | Some size =>
      let start := (Pos.to_nat page - 1) * Pos.to_nat size in
      if decide (page = 1%positive \/ start < length rows)
      then mret (take (Pos.to_nat size) (drop start rows))
      else inl Http404
  end.

Definition TitleViewSet_check_permissions (method : Method)
    (request_user : Requester) : result () :=
  if TitlePermission method request_user then mret ()
  else inl (permission_denied request_user).

(** [GET /titles/]: what the response lists. *)
Definition TitleViewSet_list (request_user : Requester) (page : positive)
    (db : DB) : result (list TitleData) :=
  _ ← TitleViewSet_check_permissions GET request_user;
  rows ← paginate_queryset page (TitleViewSet_filter_queryset db);
  mret (TitleReadSerializer <$> rows).

(** [GET /titles/{pk}/]: what the response shows. *)
Definition TitleViewSet_retrieve (request_user : Requester) (kw_pk : Z)
    (db : DB) : result TitleData :=
  _ ← TitleViewSet_check_permissions GET request_user;
  row ← get_object_or_404 (fun row => title_id row.1 = kw_pk)
          (TitleViewSet_filter_queryset db);
  if TitleObjectPermission GET request_user row.1
  then mret (TitleReadSerializer row)
  else inl (permission_denied request_user).

End TitleViewSet.

(** *** [ReviewViewSet] *)

(** The validated body of a review: both fields on creation, any of
    them on a partial update. *)
Record ReviewData := mkReviewData {
  rd_text : string;
  rd_score : Z
}.

Record ReviewPatch := mkReviewPatch {
  rp_text : option string;
  rp_score : option Z
}.

Definition set_reviews (rs : list Review) (db : DB) : DB :=
  mkDB (users db) (titles db) rs (comments db) (outbox db).

Definition set_comments (cs : list Comment) (db : DB) : DB :=
  mkDB (users db) (titles db) (reviews db) cs (outbox db).

(** Modelled from the spec: the uniqueness constraint of
    [reviews/models.py], which is not among the sources.  Section 3:
    "(title, author) unique - one review per user per title", enforced
    by the storage layer (section 5) when a row is inserted. *)
Definition Review_insert (r : Review) (rs : list Review)
    : result (list Review) :=
  if decide (Exists (fun r' => review_title r' = review_title r /\
                               review_author r' = review_author r) rs)
  then inl IntegrityError
  else inr (rs ++ [r]).

(** [Review.objects.create(...)], which [serializer.save] ends in. *)
Definition Review_objects_create (title : Title) (author : User)
    (body : ReviewData) (db : DB) : result DB :=
  let r := mkReview (next_id (review_id <$> reviews db))
             (title_id title) (user_id author)
             (rd_text body) (rd_score body) in
  rs ← Review_insert r (reviews db);
  mret (set_reviews rs db).

(** [Review.objects.bulk_create(...)]: every row goes through the same
    constraint, and the batch is one transaction. *)
Fixpoint Review_bulk_insert (new : list Review) (rs : list Review)
    : result (list Review) :=
  match new with
  | [] => mret rs
  | r :: new' => rs' ← Review_insert r rs; Review_bulk_insert new' rs'
  end.

(** Lines 217-218. *)
Definition ReviewViewSet_get_title (kw_title_id : Z) (db : DB)
    : result Title :=
  get_object_or_404 (fun t => title_id t = kw_title_id) (titles db).

(** Lines 220-222; [title.reviews.all()] are the reviews whose title
    is [title].  The query sets no order; the rows are listed here in
    the order of the store, and the properties speak of the rows, not
    of their order. *)
Definition ReviewViewSet_get_queryset (kw_title_id : Z) (db : DB)
    : result (list Review) :=
  title ← ReviewViewSet_get_title kw_title_id db;
  mret (filter (fun r => review_title r = title_id title) (reviews db)).

(** Lines 224-225; the arguments of [save] are evaluated first. *)
Definition ReviewViewSet_perform_create (kw_title_id : Z)
    (request_user : User) (body : ReviewData) (db : DB) : result DB :=
  let author := request_user in
  title ← ReviewViewSet_get_title kw_title_id db;
  Review_objects_create title author body db.

(** The framework's [perform_update]: the fields of the body are
    written to the stored row; title and author are not part of it. *)
Definition patch_review (p : ReviewPatch) (r : Review) : Review :=
  mkReview (review_id r) (review_title r) (review_author r)
    (default (review_text r) (rp_text p))
    (default (review_score r) (rp_score p)).

Definition ReviewViewSet_perform_update (obj : Review) (p : ReviewPatch)
    (db : DB) : DB :=
  set_reviews
    ((fun r => if decide (review_id r = review_id obj)
               then patch_review p r else r) <$> reviews db) db.

(** The framework's [perform_destroy]: the row goes, and the comments
    that hang on it with it. *)
Definition ReviewViewSet_perform_destroy (obj : Review) (db : DB) : DB :=
  set_comments
    (filter (fun c => comment_review c <> review_id obj) (comments db))
    (set_reviews
       (filter (fun r => review_id r <> review_id obj) (reviews db)) db).

Section ReviewViewSet.
(** [ReviewSerializer(instance, data=..., partial=True)] of
    [api/serializers.py]: [None] when [is_valid] fails. *)
Variable ReviewSerializer_partial : RequestData -> option ReviewPatch.

(** The framework's [initial]: [check_permissions]. *)
Definition check_permissions (method : Method)
    (request_user : Requester) : result () :=
  if has_permission method request_user then mret ()
  else inl (permission_denied request_user).

(** The framework's [get_object]: the row of the queryset with the
    primary key of the path, then [check_object_permissions]. *)
Definition ReviewViewSet_get_object (method : Method)
    (request_user : Requester) (kw_title_id kw_pk : Z) (db : DB)
    : result Review :=
  queryset ← ReviewViewSet_get_queryset kw_title_id db;
  obj ← get_object_or_404 (fun r => review_id r = kw_pk) queryset;
  if has_object_permission method request_user (review_author obj)
  then mret obj
  else inl (permission_denied request_user).

(** [DELETE /titles/{title_id}/reviews/{pk}/] *)
Definition ReviewViewSet_destroy (request_user : Requester)
    (kw_title_id kw_pk : Z) (db : DB) : DB * Response :=
  match
    _ ← check_permissions DELETE request_user;
    ReviewViewSet_get_object DELETE request_user kw_title_id kw_pk db
  with
  | inl e => (db, exception_handler e)
  | inr obj =>
      (ReviewViewSet_perform_destroy obj db,
       mkResponse HTTP_204_NO_CONTENT [])
  end.

(** [PATCH /titles/{title_id}/reviews/{pk}/] *)
Definition ReviewViewSet_partial_update (request_user : Requester)
    (kw_title_id kw_pk : Z) (request_data : RequestData) (db : DB)
    : DB * Response :=
  match
    _ ← check_permissions PATCH request_user;
    obj ← ReviewViewSet_get_object PATCH request_user
            kw_title_id kw_pk db;
    match ReviewSerializer_partial request_data with
    | None => inl ValidationError
    | Some p => mret (obj, p)
    end
  with
  | inl e => (db, exception_handler e)
  | inr (obj, p) =>
      (ReviewViewSet_perform_update obj p db,
       mkResponse HTTP_200_OK
         [("text", review_text (patch_review p obj))])
  end.

End ReviewViewSet.

(** The states of the store: from the empty one, by creating, bulk
    loading, updating and deleting reviews, and by any change to the
    other tables. *)
Inductive reachable : DB -> Prop :=
| reach_empty : reachable (mkDB [] [] [] [] [])
| reach_create db db' kw_title_id request_user body :
    reachable db ->
    ReviewViewSet_perform_create kw_title_id request_user body db
      = inr db' ->
    reachable db'
| reach_bulk_create db new rs :
    reachable db ->
    Review_bulk_insert new (reviews db) = inr rs ->
    reachable (set_reviews rs db)
| reach_update db obj p :
    reachable db ->
    reachable (ReviewViewSet_perform_update obj p db)
| reach_destroy db obj :
    reachable db ->
    reachable (ReviewViewSet_perform_destroy obj db)
| reach_other db db' :
    reachable db ->
    reviews db' = reviews db ->
    reachable db'.

(** One review per (title, author). *)
Definition review_key (r : Review) : Z * Z :=
  (review_title r, review_author r).

Definition unique_reviews (db : DB) : Prop :=
  NoDup (review_key <$> reviews db).

(** *** [CommentViewSet] *)

(** Lines 238-243. *)
Definition CommentViewSet_get_review (kw_title_id kw_review_id : Z)
    (db : DB) : result Review :=
  get_object_or_404
    (fun r => review_title r = kw_title_id /\ review_id r = kw_review_id)
    (reviews db).

(** [Comment.objects.create(...)], which [serializer.save] ends in. *)
Definition Comment_objects_create (review : Review) (author : User)
    (text : string) (db : DB) : DB :=
  set_comments
    (comments db ++
     [mkComment (next_id (comment_id <$> comments db))
        (review_id review) (user_id author) text]) db.

(** Lines 245-246. *)
Definition CommentViewSet_perform_create (kw_title_id kw_review_id : Z)
    (request_user : User) (text : string) (db : DB) : result DB :=
  let author := request_user in
  review ← CommentViewSet_get_review kw_title_id kw_review_id db;
  mret (Comment_objects_create review author text db).

(** Lines 248-250.  The query sets no order; as for the reviews, the
    rows are listed here in the order of the store. *)
Definition CommentViewSet_get_queryset (kw_title_id kw_review_id : Z)
    (db : DB) : result (list Comment) :=
  review ← CommentViewSet_get_review kw_title_id kw_review_id db;
  mret (filter (fun c => comment_review c = review_id review)
          (comments db)).

(** *** The actions of the two viewsets

    [ReviewViewSet] and [CommentViewSet] inherit their actions from the
    framework's [ModelViewSet]; each runs [initial] (the permission
    check of the view) and then its handler over the hooks above. *)

(** The actions, each with what its request carries. *)
Inductive Action :=
| Action_list (page : positive)
| Action_retrieve (kw_pk : Z)
| Action_create (request_data : RequestData)
| Action_update (kw_pk : Z) (request_data : RequestData)
| Action_partial_update (kw_pk : Z) (request_data : RequestData)
| Action_destroy (kw_pk : Z).

Definition action_method (action : Action) : Method :=
  match action with
  | Action_list _ | Action_retrieve _ => GET
  | Action_create _ => POST
  | Action_update _ _ => PUT
  | Action_partial_update _ _ => PATCH
  | Action_destroy _ => DELETE
  end.

Record CommentPatch := mkCommentPatch {
  cp_text : option string
}.

(** The framework's [perform_update] and [perform_destroy] for a
    comment. *)
Definition patch_comment (p : CommentPatch) (c : Comment) : Comment :=
  mkComment (comment_id c) (comment_review c) (comment_author c)
    (default (comment_text c) (cp_text p)).

Definition CommentViewSet_perform_update (obj : Comment) (p : CommentPatch)
    (db : DB) : DB :=
  set_comments
    ((fun c => if decide (comment_id c = comment_id obj)
               then patch_comment p c else c) <$> comments db) db.

Definition CommentViewSet_perform_destroy (obj : Comment) (db : DB) : DB :=
  set_comments
    (filter (fun c => comment_id c <> comment_id obj) (comments db)) db.

(** What a response shows of a review and of a comment. *)
Definition Review_data (r : Review) : list (string * string) :=
  [("text", review_text r)].

Definition Comment_data (c : Comment) : list (string * string) :=
  [("text", comment_text c)].

Section Actions.
(** The serializers of [api/serializers.py] as the actions use them.
    Validation on creation and full update sees the store, the
    requester and the path, and ends in validated data or in an
    exception; validation of a partial body gives [None] when
    [is_valid] fails. *)
Variable ReviewSerializer :
  DB -> Requester -> Z -> RequestData -> result ReviewData.
Variable ReviewSerializer_partial : RequestData -> option ReviewPatch.
Variable CommentSerializer :
  DB -> Requester -> Z -> Z -> RequestData -> result string.
Variable CommentSerializer_partial : RequestData -> option CommentPatch.
(** [PAGE_SIZE] of the settings, for the [PageNumberPagination] of both
    viewsets. *)
Variable PAGE_SIZE : option positive.

(** [request.user] of a request that passed the permission check of a
    mutating method. *)
Definition request_author (request_user : Requester) : result User :=
  match request_user with
  | Some user => mret user
  | None => inl NotAuthenticated
  end.

(** [GET /titles/{title_id}/reviews/]: one page of the queryset. *)
Definition ReviewViewSet_list (request_user : Requester) (kw_title_id : Z)
    (page : positive) (db : DB) : DB * Response :=
  match
    _ ← check_permissions GET request_user;
    queryset ← ReviewViewSet_get_queryset kw_title_id db;
    paginate_queryset PAGE_SIZE page queryset
  with
  | inl e => (db, exception_handler e)
  | inr rows =>
      (db, mkResponse HTTP_200_OK (mjoin (Review_data <$> rows)))
  end.

(** [GET /titles/{title_id}/reviews/{pk}/] *)
Definition ReviewViewSet_retrieve (request_user : Requester)
    (kw_title_id kw_pk : Z) (db : DB) : DB * Response :=
  match
    _ ← check_permissions GET request_user;
    ReviewViewSet_get_object GET request_user kw_title_id kw_pk db
  with
  | inl e => (db, exception_handler e)
  | inr obj => (db, mkResponse HTTP_200_OK (Review_data obj))
  end.

(** [POST /titles/{title_id}/reviews/]: the body is validated before
    [perform_create] looks for the title. *)
Definition ReviewViewSet_create (request_user : Requester)
    (kw_title_id : Z) (request_data : RequestData) (db : DB)
    : DB * Response :=
  match
    _ ← check_permissions POST request_user;
    body ← ReviewSerializer db request_user kw_title_id request_data;
    author ← request_author request_user;
    db' ← ReviewViewSet_perform_create kw_title_id author body db;
    mret (db', body)
  with
  | inl e => (db, exception_handler e)
  | inr (db', body) =>
      (db', mkResponse HTTP_201_CREATED [("text", rd_text body)])
  end.

(** [PUT /titles/{title_id}/reviews/{pk}/]: the object is looked up
    before the body is validated. *)
Definition ReviewViewSet_update (request_user : Requester)
    (kw_title_id kw_pk : Z) (request_data : RequestData) (db : DB)
    : DB * Response :=
  match
    _ ← check_permissions PUT request_user;
    obj ← ReviewViewSet_get_object PUT request_user kw_title_id kw_pk db;
    body ← ReviewSerializer db request_user kw_title_id request_data;
    mret (obj, mkReviewPatch (Some (rd_text body)) (Some (rd_score body)))
  with
  | inl e => (db, exception_handler e)
  | inr (obj, p) =>
      (ReviewViewSet_perform_update obj p db,
       mkResponse HTTP_200_OK (Review_data (patch_review p obj)))
  end.

Definition ReviewViewSet_dispatch (action : Action)
    (request_user : Requester) (kw_title_id : Z) (db : DB)
    : DB * Response :=
  match action with
  | Action_list page =>
      ReviewViewSet_list request_user kw_title_id page db
  | Action_retrieve kw_pk =>
      ReviewViewSet_retrieve request_user kw_title_id kw_pk db
  | Action_create request_data =>
      ReviewViewSet_create request_user kw_title_id request_data db
  | Action_update kw_pk request_data =>
      ReviewViewSet_update request_user kw_title_id kw_pk request_data db
  | Action_partial_update kw_pk request_data =>
      ReviewViewSet_partial_update ReviewSerializer_partial request_user
        kw_title_id kw_pk request_data db
  | Action_destroy kw_pk =>
      ReviewViewSet_destroy request_user kw_title_id kw_pk db
  end.

(** The framework's [get_object] for a comment. *)
Definition CommentViewSet_get_object (method : Method)
    (request_user : Requester) (kw_title_id kw_review_id kw_pk : Z)
    (db : DB) : result Comment :=
  queryset ← CommentViewSet_get_queryset kw_title_id kw_review_id db;
  obj ← get_object_or_404 (fun c => comment_id c = kw_pk) queryset;
  if has_object_permission method request_user (comment_author obj)
  then mret obj
  else inl (permission_denied request_user).

Definition CommentViewSet_list (request_user : Requester)
    (kw_title_id kw_review_id : Z) (page : positive) (db : DB)
    : DB * Response :=
  match
    _ ← check_permissions GET request_user;
    queryset ← CommentViewSet_get_queryset kw_title_id kw_review_id db;
    paginate_queryset PAGE_SIZE page queryset
  with
  | inl e => (db, exception_handler e)
  | inr rows =>
      (db, mkResponse HTTP_200_OK (mjoin (Comment_data <$> rows)))
  end.

Definition CommentViewSet_retrieve (request_user : Requester)
    (kw_title_id kw_review_id kw_pk : Z) (db : DB) : DB * Response :=
  match
    _ ← check_permissions GET request_user;
    CommentViewSet_get_object GET request_user kw_title_id kw_review_id
      kw_pk db
  with
  | inl e => (db, exception_handler e)
  | inr obj => (db, mkResponse HTTP_200_OK (Comment_data obj))
  end.

Definition CommentViewSet_create (request_user : Requester)
    (kw_title_id kw_review_id : Z) (request_data : RequestData) (db : DB)
    : DB * Response :=
  match
    _ ← check_permissions POST request_user;
    text ← CommentSerializer db request_user kw_title_id kw_review_id
             request_data;
    author ← request_author request_user;
    db' ← CommentViewSet_perform_create kw_title_id kw_review_id author
            text db;
    mret (db', text)
  with
  | inl e => (db, exception_handler e)
  | inr (db', text) => (db', mkResponse HTTP_201_CREATED [("text", text)])
  end.

Definition CommentViewSet_update (request_user : Requester)
    (kw_title_id kw_review_id kw_pk : Z) (request_data : RequestData)
    (db : DB) : DB * Response :=
  match
    _ ← check_permissions PUT request_user;
    obj ← CommentViewSet_get_object PUT request_user kw_title_id
            kw_review_id kw_pk db;
    text ← CommentSerializer db request_user kw_title_id kw_review_id
             request_data;
    mret (obj, mkCommentPatch (Some text))
  with
  | inl e => (db, exception_handler e)
  | inr (obj, p) =>
      (CommentViewSet_perform_update obj p db,
       mkResponse HTTP_200_OK (Comment_data (patch_comment p obj)))
  end.

Definition CommentViewSet_partial_update (request_user : Requester)
    (kw_title_id kw_review_id kw_pk : Z) (request_data : RequestData)
    (db : DB) : DB * Response :=
  match
    _ ← check_permissions PATCH request_user;
    obj ← CommentViewSet_get_object PATCH request_user kw_title_id
            kw_review_id kw_pk db;
    match CommentSerializer_partial request_data with
    | None => inl ValidationError
    | Some p => mret (obj, p)
    end
  with
  | inl e => (db, exception_handler e)
  | inr (obj, p) =>
      (CommentViewSet_perform_update obj p db,
       mkResponse HTTP_200_OK (Comment_data (patch_comment p obj)))
  end.

Definition CommentViewSet_destroy (request_user : Requester)
    (kw_title_id kw_review_id kw_pk : Z) (db : DB) : DB * Response :=
  match
    _ ← check_permissions DELETE request_user;
    CommentViewSet_get_object DELETE request_user kw_title_id
      kw_review_id kw_pk db
  with
  | inl e => (db, exception_handler e)
  | inr obj =>
      (CommentViewSet_perform_destroy obj db,
       mkResponse HTTP_204_NO_CONTENT [])
  end.

Definition CommentViewSet_dispatch (action : Action)
    (request_user : Requester) (kw_title_id kw_review_id : Z) (db : DB)
    : DB * Response :=
  match action with
  | Action_list page =>
      CommentViewSet_list request_user kw_title_id kw_review_id page db
  | Action_retrieve kw_pk =>
      CommentViewSet_retrieve request_user kw_title_id kw_review_id
        kw_pk db
  | Action_create request_data =>
      CommentViewSet_create request_user kw_title_id kw_review_id
        request_data db
  | Action_update kw_pk request_data =>
      CommentViewSet_update request_user kw_title_id kw_review_id kw_pk
        request_data db
  | Action_partial_update kw_pk request_data =>
      CommentViewSet_partial_update request_user kw_title_id
        kw_review_id kw_pk request_data db
  | Action_destroy kw_pk =>
      CommentViewSet_destroy request_user kw_title_id kw_review_id
        kw_pk db
  end.

(** The body an action takes through full validation, if it takes
    one. *)
Definition validated_body (action : Action) : option RequestData :=
  match action with
  | Action_create request_data => Some request_data
  | _ => None
  end.

End Actions.

(** The rule "an operation on a review whose title does not exist is
    answered 404", for one request to delete. *)
Definition missing_title_is_404 (request_user : Requester)
    (kw_title_id kw_pk : Z) (db : DB) : Prop :=
  (forall t, t ∈ titles db -> title_id t <> kw_title_id) ->
  status (ReviewViewSet_destroy request_user kw_title_id kw_pk db).2
  = HTTP_404_NOT_FOUND.

(** *** [UserViewSet] *)

(** [ProfileSerializer] of [api/serializers.py]: the body it shows for a
    user, the validation of a partial body ([None] when [is_valid]
    fails) against the users stored, and the instance [update] returns
    for validated data. *)
Class ProfileSerializer := {
  ProfileData : Type;
  ProfileSerializer_data : User -> list (string * string);
  ProfileSerializer_partial :
    list User -> User -> RequestData -> option ProfileData;
  ProfileSerializer_update : User -> ProfileData -> User
}.

(** [instance.save()] on a user: the row with the primary key of the
    instance is overwritten; without such a row the instance is
    inserted. *)
Definition User_save (u : User) (db : DB) : DB :=
  mkDB
    (if decide (user_id u ∈ user_id <$> users db)
     then (fun v => if decide (user_id v = user_id u) then u else v)
          <$> users db
     else users db ++ [u])
    (titles db) (reviews db) (comments db) (outbox db).

Section UserViewSet.
Context `{ProfileSerializer}.

(** Lines 135-143: [GET /users/me/], behind [IsAuthenticated]. *)
Definition UserViewSet_profile (request_user : Requester) : Response :=
  match request_user with
  | None => exception_handler (permission_denied request_user)
  | Some user => mkResponse HTTP_200_OK (ProfileSerializer_data user)
  end.

(** Lines 145-152: [PATCH /users/me/], behind the same permission. *)
Definition UserViewSet_update_profile (request_user : Requester)
    (request_data : RequestData) (db : DB) : DB * Response :=
  match request_user with
  | None => (db, exception_handler (permission_denied request_user))
  | Some user =>
      match ProfileSerializer_partial (users db) user request_data with
      | None => (db, exception_handler ValidationError)
      | Some validated_data =>
          let user' := ProfileSerializer_update user validated_data in
          (User_save user' db,
           mkResponse HTTP_200_OK (ProfileSerializer_data user'))
      end
  end.

End UserViewSet.

End Views.

(** ** Concrete instances

    A list-backed database for the importer and fixed serializers and
    token functions for the views, used to run the definitions. *)

Module Fixtures.
Import ImportCsv.

(** A stored row: its model and its columns, a foreign key kept as the
    id of the row it points to. *)
Record Row := mkRow {
  row_model : Model;
  row_columns : gmap string string
}.

Definition row_pk (o : Row) : string := default "" (row_columns o !! "id").

Definition column_of (v : Val Row) : string :=
  match v with
  | Plain value => value
  | Related o => row_pk o
  end.

(** Modelled from the spec: the relations of [reviews/models.py], which
    is not among the sources.  Section 2: Title to Category and Genre,
    Review to Title and User, Comment to Review and User. *)
Definition relations (model : Model) (field : string) : result Model :=
  match model, field with
  | Title, "category" => inr Category
  | Title, "genre" => inr Genre
  | Review, "title" => inr Title
  | Review, "author" => inr User
  | Comment, "review" => inr Review
  | Comment, "author" => inr User
  | _, _ => inl (FieldDoesNotExist model field)
  end.

Definition lookup_pk (st : Model -> list Row) (model : Model)
    (id : string) : result Row :=
  match filter (fun o => row_pk o = id) (st model) with
  | [] => inl (DoesNotExist model id)
  | o :: _ => inr o
  end.

Definition append_rows (st : Model -> list Row) (model : Model)
    (new : list Row) : result (Model -> list Row) :=
  inr (fun m => if decide (m = model) then st m ++ new else st m).

#[export] Instance ListORM : ORM := {|
  Obj := Row;
  Store := Model -> list Row;
  remote_field_model := relations;
  objects_get := lookup_pk;
  model_init := fun model kwargs => inr (mkRow model (column_of <$> kwargs));
  bulk_create := append_rows
|}.

(** A database with one user and one title. *)
Definition user100 : Row :=
  mkRow User (<["id" := "100"]> (<["username" := "bingobongo"]> ∅)).
Definition title1 : Row :=
  mkRow Title (<["id" := "1"]> (<["name" := "Solaris"]> ∅)).

Definition store0 : Model -> list Row := fun m =>
  match m with
  | User => [user100]
  | Title => [title1]
  | _ => []
  end.

Definition world0 : World := mkWorld ListORM store0 [].

(** Two rows of [review.csv]: a review of title 1, and a review of a
    title that does not exist. *)
Definition review_ok : list (string * string) :=
  [("id", "1"); ("title_id", "1"); ("text", "fine"); ("author", "100");
   ("score", "7")].
Definition review_dangling : list (string * string) :=
  [("id", "2"); ("title_id", "9"); ("text", "lost"); ("author", "100");
   ("score", "3")].

(** A directory whose [review.csv] is sound, and one where it is not. *)
Definition files0 : gmap string (list (list (string * string))) :=
  <["static/data/review.csv" := [review_ok]]>
  (<["static/data/titles.csv" := []]> ∅).

Definition files1 : gmap string (list (list (string * string))) :=
  <["static/data/review.csv" := [review_ok; review_dangling]]> ∅.

Import Views.

(** Modelled from the spec: [api/serializers.py] is not among the
    sources.  Section 4.1: sign-up "forbids the reserved value "me" as
    a username", and section 8: "Signup with username "me" always
    fails validation". *)
Definition validate_username (value : string) : bool :=
  negb (String.eqb value "me").

(** Modelled from the spec: the request-level validation of sign-up
    ([GetCodeSerializer] of [api/serializers.py], not among the
    sources): both fields present, the reserved name refused. *)
Definition get_code (request_data : RequestData) : option SignUpData :=
  username ← request_data !! "username";
  email ← request_data !! "email";
  if validate_username username then Some (mkSignUpData username email)
  else None.

(** Modelled from the spec: the validation before a user is created
    ([SignUpSerializer] of [api/serializers.py], not among the
    sources).  Section 4.1: sign-up "validates uniqueness"; section 3:
    username and email are unique. *)
Definition sign_up (stored : list User) (request_data : RequestData)
    : option SignUpData :=
  data ← get_code request_data;
  if decide (Forall (fun u => username u <> sd_username data /\
                              email u <> sd_email data) stored)
  then Some data else None.

(** The body of a token request: both fields present. *)
Definition get_jwtoken (request_data : RequestData) : option TokenData :=
  username ← request_data !! "username";
  code ← request_data !! "confirmation_code";
  Some (mkTokenData username code).

#[export] Instance SpecSerializers : Serializers := {|
  GetJWTokenSerializer := get_jwtoken;
  GetCodeSerializer := get_code;
  SignUpSerializer := sign_up
|}.

(** Stand-ins for the token functions: the code of a user is built
    from the name and the e-mail address stored for the user. *)
Definition code_of (u : User) : string :=
  "code-" +:+ username u +:+ "-" +:+ email u.

#[export] Instance DemoTokens : Tokens := {|
  make_token := code_of;
  check_token := fun u code => String.eqb (code_of u) code;
  AccessToken_for_user := fun u => "jwt-" +:+ username u
|}.

Definition alice : User :=
  mkUser 1 "alice" "alice@example.org" USER "" "" "" false.
Definition bob : User :=
  mkUser 2 "bob" "bob@example.org" USER "" "" "" false.
Definition carol : User :=
  mkUser 3 "carol" "carol@example.org" MODERATOR "" "" "" false.

Definition solaris : Title := mkTitle 1 "Solaris" 1972 "" None.
Definition stalker : Title := mkTitle 2 "Stalker" 1979 "" None.

Definition alice_on_solaris : Review := mkReview 1 1 1 "slow" 7.
Definition bob_on_solaris : Review := mkReview 2 1 2 "great" 10.

Definition db0 : DB :=
  mkDB [alice; bob; carol] [solaris; stalker]
       [alice_on_solaris; bob_on_solaris] [] [].

(** A store where three reviews of one title score 1, 1 and 2. *)
Definition db_thirds : DB :=
  mkDB [alice; bob; carol] [solaris]
       [mkReview 1 1 1 "weak" 1; mkReview 2 1 2 "poor" 1;
        mkReview 3 1 3 "so-so" 2] [] [].

(** Stand-ins for the serializers of the actions: a review needs a
    text and a score from 1 to 10, a comment needs a text. *)
Definition score_of_string (s : string) : option Z :=
  match s with
  | "1" => Some 1%Z | "2" => Some 2%Z | "3" => Some 3%Z | "4" => Some 4%Z
  | "5" => Some 5%Z | "6" => Some 6%Z | "7" => Some 7%Z | "8" => Some 8%Z
  | "9" => Some 9%Z | "10" => Some 10%Z
  | _ => None
  end.

Definition review_body (db : DB) (request_user : Requester)
    (kw_title_id : Z) (request_data : RequestData)
    : Views.result ReviewData :=
  match request_data !! "text",
        request_data !! "score" ≫= score_of_string with
  | Some text, Some score => inr (mkReviewData text score)
  | _, _ => inl ValidationError
  end.

Definition comment_body (db : DB) (request_user : Requester)
    (kw_title_id kw_review_id : Z) (request_data : RequestData)
    : Views.result string :=
  match request_data !! "text" with
  | Some text => inr text
  | None => inl ValidationError
  end.

(** A stand-in for [ProfileSerializer]: the bio is the one field a body
    can set. *)
#[export] Instance BioProfile : ProfileSerializer := {|
  ProfileData := string;
  ProfileSerializer_data := fun u =>
    [("username", username u); ("bio", bio u)];
  ProfileSerializer_partial := fun _ _ request_data =>
    request_data !! "bio";
  ProfileSerializer_update := fun u new_bio =>
    mkUser (user_id u) (username u) (email u) (role u) new_bio
      (first_name u) (last_name u) (is_superuser u)
|}.

End Fixtures.

(** * Properties *)

(** ** Python strings *)

Section PyStrings.

Lemma contains_substring (sub s : string) (n : nat) :
  String.substring n (String.length sub) s = sub ->
  Py.contains sub s = true.
Proof.
  revert n. induction s as [|c s IH]; intros n Hsub.
  - assert (sub = "") as ->.
    { destruct n, (String.length sub); simpl in Hsub; congruence. }
    reflexivity.
  - change (Py.contains sub (String c s))
      with (String.prefix sub (String c s) || Py.contains sub s).
    destruct n as [|n].
    + apply String.prefix_correct in Hsub. rewrite Hsub. reflexivity.
    + simpl in Hsub. rewrite (IH n Hsub). apply orb_true_r.
Qed.

Lemma endswith_contains (s suffix : string) :
  Py.endswith s suffix = true -> Py.contains suffix s = true.
Proof.
  unfold Py.endswith. intros [_ Heq]%andb_prop.
  apply String.eqb_eq in Heq.
  exact (contains_substring _ _ _ Heq).
Qed.

End PyStrings.

Section PySlices.

Lemma list_ascii_of_string_app (s t : string) :
  String.list_ascii_of_string (s +:+ t)
  = String.list_ascii_of_string s ++ String.list_ascii_of_string t.
Proof.
  induction s as [|c s IH]; simpl; [reflexivity|]. rewrite IH. reflexivity.
Qed.

Lemma string_of_list_ascii_app (l m : list Ascii.ascii) :
  String.string_of_list_ascii (l ++ m)
  = String.string_of_list_ascii l +:+ String.string_of_list_ascii m.
Proof.
  induction l as [|c l IH]; simpl; [reflexivity|]. rewrite IH. reflexivity.
Qed.

Lemma string_length_list (s : string) :
  String.length s = length (String.list_ascii_of_string s).
Proof.
  induction s as [|c s IH]; simpl; [reflexivity|]. rewrite IH. reflexivity.
Qed.

(** Cutting as many characters as a tail of one-byte characters has
    bytes cuts that tail. *)
Lemma drop_char_plain (m l : list Ascii.ascii) :
  Forall (fun b => Py.is_continuation b = false) m ->
  Nat.iter (length m) Py.drop_char (m ++ l) = l.
Proof.
  induction 1 as [|b m Hb _ IH]; [reflexivity|].
  rewrite length_cons, Nat.iter_succ_r. simpl. rewrite Hb. exact IH.
Qed.

Lemma drop_last_app (s t : string) :
  Forall (fun b => Py.is_continuation b = false)
    (String.list_ascii_of_string t) ->
  Py.drop_last (String.length t) (s +:+ t) = s.
Proof.
  intros Hplain. unfold Py.drop_last.
  rewrite list_ascii_of_string_app, reverse_app, string_length_list.
  rewrite <- (length_reverse (String.list_ascii_of_string t)).
  rewrite drop_char_plain by (apply Forall_reverse; exact Hplain).
  rewrite reverse_involutive. apply String.string_of_list_ascii_of_string.
Qed.

Lemma substring_whole (s : string) :
  String.substring 0 (String.length s) s = s.
Proof.
  induction s as [|c s IH]; simpl; [reflexivity|]. rewrite IH. reflexivity.
Qed.

Lemma substring_split (n : nat) (s : string) :
  n <= String.length s ->
  s = String.substring 0 n s +:+ String.substring n (String.length s - n) s.
Proof.
  revert n. induction s as [|c s IH]; intros [|n] Hn.
  - reflexivity.
  - simpl in Hn. lia.
  - rewrite Nat.sub_0_r, substring_whole. reflexivity.
  - simpl in Hn.
    change (String c s = String c (String.substring 0 n s +:+
              String.substring n (String.length s - n) s)).
    f_equal. apply IH. lia.
Qed.

Lemma endswith_app (s suffix : string) :
  Py.endswith s suffix = true ->
  s = String.substring 0 (String.length s - String.length suffix) s
      +:+ suffix.
Proof.
  unfold Py.endswith. intros [Hlen Heq]%andb_prop.
  apply Nat.leb_le in Hlen. apply String.eqb_eq in Heq.
  set (k := String.length s - String.length suffix) in *.
  rewrite (substring_split k s) at 1 by lia. f_equal.
  replace (String.length s - k) with (String.length suffix) by lia.
  exact Heq.
Qed.

Lemma removesuffix_id (field : string) :
  Py.endswith field "_id" = true ->
  Py.drop_last 3 field = Py.removesuffix field "_id".
Proof.
  intros Hend. unfold Py.removesuffix. rewrite Hend.
  rewrite (endswith_app _ _ Hend) at 1.
  apply (drop_last_app _ "_id"). repeat constructor.
Qed.

End PySlices.

(** ** The CSV importer *)

Section ImporterProperties.
Import ImportCsv.
Context `{ORM}.

(** When [_id] occurs in a column name only as its ending, lines 49-50
    strip exactly that suffix. *)
Lemma column_field_removesuffix (field : string) :
  (Py.contains "_id" field = true -> Py.endswith field "_id" = true) ->
  column_field field = Py.removesuffix field "_id".
Proof.
  intros Hsuffix. unfold column_field.
  destruct (Py.contains "_id" field) eqn:Hin.
  - apply removesuffix_id. exact (Hsuffix eq_refl).
  - unfold Py.removesuffix.
    destruct (Py.endswith field "_id") eqn:Hend; [|reflexivity].
    apply endswith_contains in Hend. congruence.
Qed.

(** C1 (as amended): a column whose name has [_id] only as an ending, if
    at all, is resolved as a foreign key exactly when its name without
    that suffix is one of the registered foreign-key fields; the cell is
    then looked up by id in the model the field points to and filed under
    the stripped name; every other column keeps its text, also under the
    stripped name. *)
Theorem importer_cell_foreign_key (st : Store) (model : Model)
    (field value : string) :
  (Py.contains "_id" field = true -> Py.endswith field "_id" = true) ->
  let name := Py.removesuffix field "_id" in
  (name ∈ FK_FIELDS ->
     importer_cell st model field value =
     (fk_model ← remote_field_model model name;
      o ← objects_get st fk_model value;
      mret (name, Related o))) /\
  (name ∉ FK_FIELDS ->
     importer_cell st model field value = inr (name, Plain value)).
Proof.
  intros Hsuffix name. unfold importer_cell.
  rewrite (column_field_removesuffix field Hsuffix). fold name.
  split; intros Hname.
  - rewrite bool_decide_eq_true_2 by exact Hname. reflexivity.
  - rewrite bool_decide_eq_false_2 by exact Hname. reflexivity.
Qed.

End ImporterProperties.

Lemma importer_cell_foreign_key_witness :
  (Py.contains "_id" "title_id" = true ->
   Py.endswith "title_id" "_id" = true) /\
  ImportCsv.importer_cell (H := Fixtures.ListORM) Fixtures.store0
    ImportCsv.Review "title_id" "1"
  = inr ("title", ImportCsv.Related Fixtures.title1).
Proof.
  split; [reflexivity|].
  destruct (importer_cell_foreign_key (H := Fixtures.ListORM)
              Fixtures.store0 ImportCsv.Review "title_id" "1")
    as [Hfk _]; [reflexivity|].
  rewrite Hfk; [reflexivity|compute_done].
Defined.

(** C1 (as stated) fails: the column [author] does not end in [_id], yet
    its cell is resolved to the stored user instead of being passed
    through. *)
Lemma resolves_by_suffix_author :
  ~ ImportCsv.resolves_by_suffix (H := Fixtures.ListORM) Fixtures.store0
      ImportCsv.Review "author" "100".
Proof. unfold ImportCsv.resolves_by_suffix. vm_compute. discriminate. Qed.

(** What line 55 returns for that cell. *)
Example importer_cell_author :
  ImportCsv.importer_cell (H := Fixtures.ListORM) Fixtures.store0
    ImportCsv.Review "author" "100"
  = inr ("author", ImportCsv.Related Fixtures.user100).
Proof. reflexivity. Qed.

(** A column that ends in [_id] without naming a registered field is
    renamed and passed through. *)
Example importer_cell_unregistered_suffix :
  ImportCsv.importer_cell (H := Fixtures.ListORM) Fixtures.store0
    ImportCsv.Review "pub_id" "9"
  = inr ("pub", ImportCsv.Plain "9").
Proof. reflexivity. Qed.

(** Line 49 tests for [_id] anywhere in the name, line 50 cuts the last
    three characters whatever they are. *)
Example importer_cell_inner_id :
  ImportCsv.importer_cell (H := Fixtures.ListORM) Fixtures.store0
    ImportCsv.Review "user_ident" "9"
  = inr ("user_id", ImportCsv.Plain "9").
Proof. reflexivity. Qed.

(** A sound file is imported as a whole: one row stored, one line
    printed. *)
Example importer_review_csv :
  let '(w, r) :=
    ImportCsv.importer (H := Fixtures.ListORM) Fixtures.files0
      "review.csv" ImportCsv.Review Fixtures.world0 in
  r = inr () /\
  length (ImportCsv.store w ImportCsv.Review) = 1 /\
  ImportCsv.stdout w = [ImportCsv.success_message "review.csv"].
Proof. vm_compute. repeat split. Qed.

Section ImporterFailure.
Import ImportCsv.
Context `{ORM}.

Lemma importer_cell_dangling (st : Store) (model : Model)
    (field value : string) (fk_model : Model) :
  column_field field ∈ FK_FIELDS ->
  remote_field_model model (column_field field) = inr fk_model ->
  objects_get st fk_model value = inl (DoesNotExist fk_model value) ->
  importer_cell st model field value = inl (DoesNotExist fk_model value).
Proof.
  intros Hfk Hremote Hget. unfold importer_cell.
  rewrite bool_decide_eq_true_2 by exact Hfk.
  rewrite Hremote. simpl. rewrite Hget. reflexivity.
Qed.

(** A cell that fails makes its row fail, whatever came before it. *)
Lemma importer_row_cell_error (st : Store) (model : Model) (items : Row)
    (kwargs : gmap string (Val Obj)) (field value : string) (e : exn) :
  (field, value) ∈ items ->
  importer_cell st model field value = inl e ->
  exists e', importer_row st model items kwargs = inl e'.
Proof.
  revert kwargs.
  induction items as [|[f v] items IH]; intros kwargs Hin Hcell.
  - inversion Hin.
  - simpl. destruct (importer_cell st model f v) as [e0|kv] eqn:Hfv.
    + exists e0. reflexivity.
    + apply elem_of_cons in Hin as [Heq|Hin].
      * injection Heq as -> ->. congruence.
      * simpl. exact (IH _ Hin Hcell).
Qed.

(** The error of a row is the error of one of its cells. *)
Lemma importer_row_error_inv (st : Store) (model : Model) (items : Row)
    (kwargs : gmap string (Val Obj)) (e : exn) :
  importer_row st model items kwargs = inl e ->
  exists field value,
    (field, value) ∈ items /\ importer_cell st model field value = inl e.
Proof.
  revert kwargs. induction items as [|[f v] items IH]; intros kwargs.
  - discriminate.
  - simpl. destruct (importer_cell st model f v) as [e0|kv] eqn:Hfv; simpl.
    + intros [= ->]. exists f, v. split; [left|exact Hfv].
    + intros Hrest. destruct (IH _ Hrest) as (f' & v' & Hin & Hcell).
      exists f', v'. split; [right; exact Hin|exact Hcell].
Qed.

(** A row that fails makes the loop over the rows fail. *)
Lemma importer_rows_row_error (st : Store) (model : Model)
    (data : list Row) (models : list Obj) (row : Row) (e : exn) :
  row ∈ data ->
  importer_row st model row ∅ = inl e ->
  exists e', importer_rows st model data models = inl e'.
Proof.
  revert models. induction data as [|r data IH]; intros models Hin Hrow.
  - inversion Hin.
  - simpl. destruct (importer_row st model r ∅) as [e0|kwargs] eqn:Hr.
    + exists e0. reflexivity.
    + simpl. destruct (model_init model kwargs) as [e1|o].
      * exists e1. reflexivity.
      * simpl. apply elem_of_cons in Hin as [->|Hin]; [congruence|].
        exact (IH _ Hin Hrow).
Qed.

(** The error of the loop is the error of a row or of the constructor. *)
Lemma importer_rows_error_inv (st : Store) (model : Model)
    (data : list Row) (models : list Obj) (e : exn) :
  importer_rows st model data models = inl e ->
  exists row, row ∈ data /\
    (importer_row st model row ∅ = inl e \/
     exists kwargs, importer_row st model row ∅ = inr kwargs /\
                    model_init model kwargs = inl e).
Proof.
  revert models. induction data as [|r data IH]; intros models.
  - discriminate.
  - simpl. destruct (importer_row st model r ∅) as [e0|kwargs] eqn:Hr; simpl.
    + intros [= ->]. exists r. split; [left|left; exact Hr].
    + destruct (model_init model kwargs) as [e1|o] eqn:Hinit; simpl.
      * intros [= ->]. exists r. split; [left|right; eauto].
      * intros Hrest. destruct (IH _ Hrest) as (row & Hin & Hcase).
        exists row. split; [right; exact Hin|exact Hcase].
Qed.

(** C2: when a row of the file holds a foreign-key cell whose id does not
    exist, the import of the file raises and leaves the database and the
    output as they were - [bulk_create] is not reached; and the exception
    is the lookup error [DoesNotExist] when missing ids are the only
    defect of the file. *)
Theorem importer_dangling_reference (files : Files) (csv_file : string)
    (model : Model) (w : World) (data : list Row) (row : Row) :
  files !! (CSV_ROOT +:+ csv_file) = Some data ->
  row ∈ data ->
  dangling_reference (store w) model row ->
  (exists e, importer files csv_file model w = (w, inl e)) /\
  (only_lookup_failures (store w) model data ->
   exists fk_model id,
     importer files csv_file model w = (w, inl (DoesNotExist fk_model id))).
Proof.
  intros Hfile Hrow (field & value & fk_model & Hin & Hfk & Hremote & Hget).
  pose proof (importer_cell_dangling _ _ _ _ _ Hfk Hremote Hget) as Hcell.
  destruct (importer_row_cell_error (store w) model row ∅ _ _ _ Hin Hcell)
    as [e1 He1].
  destruct (importer_rows_row_error (store w) model data [] row e1 Hrow He1)
    as [e2 He2].
  assert (importer files csv_file model w = (w, inl e2)) as Himp.
  { unfold importer. rewrite Hfile, He2. reflexivity. }
  split; [exists e2; exact Himp|].
  intros Honly. rewrite Himp.
  destruct (importer_rows_error_inv _ _ _ _ _ He2)
    as (row' & Hrow' & [Hfail|(kwargs & Hkw & Hinit)]).
  - destruct (importer_row_error_inv _ _ _ _ _ Hfail)
      as (f' & v' & Hin' & Hcell').
    destruct (Honly row' Hrow') as [Hcells _].
    destruct (Hcells f' v' e2 Hin' Hcell') as (m & id & ->).
    exists m, id. reflexivity.
  - destruct (Honly row' Hrow') as [_ Hctor].
    destruct (Hctor kwargs Hkw) as [o Ho]. congruence.
Qed.

End ImporterFailure.

Lemma only_lookup_failures_files0 :
  ImportCsv.only_lookup_failures (H := Fixtures.ListORM) Fixtures.store0
    ImportCsv.Review [Fixtures.review_ok; Fixtures.review_dangling].
Proof.
  intros row Hrow. split.
  - intros field value e Hin Hcell.
    repeat (apply elem_of_cons in Hrow as [->|Hrow]);
      [| |inversion Hrow];
      unfold Fixtures.review_ok, Fixtures.review_dangling in Hin;
      repeat (apply elem_of_cons in Hin as [[= -> ->]|Hin]);
      try (inversion Hin; fail);
      vm_compute in Hcell; try discriminate;
      injection Hcell as <-; eauto.
  - intros kwargs _. eexists. reflexivity.
Qed.

Lemma importer_dangling_reference_witness :
  let w := Fixtures.world0 in
  (exists e,
     ImportCsv.importer (H := Fixtures.ListORM) Fixtures.files1
       "review.csv" ImportCsv.Review w = (w, inl e)) /\
  (exists fk_model id,
     ImportCsv.importer (H := Fixtures.ListORM) Fixtures.files1
       "review.csv" ImportCsv.Review w
     = (w, inl (ImportCsv.DoesNotExist fk_model id))).
Proof.
  intros w.
  destruct (importer_dangling_reference (H := Fixtures.ListORM)
              Fixtures.files1 "review.csv" ImportCsv.Review w
              [Fixtures.review_ok; Fixtures.review_dangling]
              Fixtures.review_dangling) as [Hraise Hlookup].
  - reflexivity.
  - right. left.
  - exists "title_id", "9", ImportCsv.Title.
    split; [right; left|].
    split; [compute_done|].
    split; reflexivity.
  - split; [exact Hraise|].
    exact (Hlookup only_lookup_failures_files0).
Defined.

Section HandleProperties.
Import ImportCsv.
Context `{ORM}.
Variable files : Files.

(** The loop over the names runs its first part, then the rest from the
    state the first part left, unless the first part raised. *)
Lemma handle_named_app (pre rest : list string) (w : World) :
  handle_named files (pre ++ rest) w =
  match handle_named files pre w with
  | (w', inr _) => handle_named files rest w'
  | (w', inl e) => (w', inl e)
  end.
Proof.
  revert w. induction pre as [|name pre IH]; intros w.
  { simpl. destruct (handle_named files rest w) as [w' [e|[]]]; reflexivity. }
  rewrite <- app_comm_cons. cbn [handle_named].
  destruct (bool_decide (name ∈ FILE_MODEL_keys)); [|reflexivity].
  destruct (dict_get FILE_MODEL name) as [model|]; [|reflexivity].
  destruct (importer files name model w) as [w1 [e|u]]; [reflexivity|].
  apply IH.
Qed.

(** A successful import prints its line and nothing else. *)
Lemma importer_stdout (csv_file : string) (model : Model) (w w' : World) :
  importer files csv_file model w = (w', inr ()) ->
  stdout w' = stdout w ++ [success_message csv_file].
Proof.
  unfold importer. destruct (files !! _) as [data|]; [|discriminate].
  destruct (importer_rows _ _ _ _) as [e|models]; [discriminate|].
  destruct (bulk_create _ _ _) as [e|st']; [discriminate|].
  intros [= <-]. reflexivity.
Qed.

(** When the loop ends without an exception, every name was registered
    and every file was imported, in the order given. *)
Lemma handle_named_completed (names : list string) (w w' : World) :
  handle_named files names w = (w', inr ()) ->
  Forall (fun name => name ∈ FILE_MODEL_keys) names /\
  stdout w' = stdout w ++ (success_message <$> names).
Proof.
  revert w. induction names as [|name names IH]; intros w;
    cbn [handle_named fmap list_fmap].
  - intros [= <-]. split; [constructor|]. rewrite app_nil_r. reflexivity.
  - destruct (bool_decide (name ∈ FILE_MODEL_keys)) eqn:Hkey;
      [|discriminate].
    apply bool_decide_eq_true_1 in Hkey.
    destruct (dict_get FILE_MODEL name) as [model|]; [|discriminate].
    destruct (importer files name model w) as [w1 [e|[]]] eqn:Himp;
      [discriminate|].
    intros Hrest. destruct (IH _ Hrest) as [Hall Hout].
    split; [constructor; assumption|].
    rewrite Hout, (importer_stdout _ _ _ _ Himp), <- app_assoc.
    reflexivity.
Qed.


End HandleProperties.


(** ** Lookups in a table with a unique key *)

Section Lookups.
Import Views.
Context {A K : Type} (key : A -> K) (k : K).
Context (P : A -> Prop) `{forall x, Decision (P x)}.
Hypothesis P_key : forall x, P x -> key x = k.

Lemma NoDup_key_inj (table : list A) (x y : A) :
  NoDup (key <$> table) -> x ∈ table -> y ∈ table -> key x = key y ->
  x = y.
Proof.
  induction table as [|a table IH]; [inversion 2|].
  rewrite fmap_cons, NoDup_cons. intros [Ha Hnd] Hx Hy Hxy.
  apply elem_of_cons in Hx as [->|Hx]; apply elem_of_cons in Hy as [->|Hy].
  - reflexivity.
  - destruct Ha. rewrite Hxy. apply list_elem_of_fmap. eauto.
  - destruct Ha. rewrite <- Hxy. apply list_elem_of_fmap. eauto.
  - exact (IH Hnd Hx Hy Hxy).
Qed.

Lemma filter_at_most_one (table : list A) :
  NoDup (key <$> table) -> length (filter P table) <= 1.
Proof.
  intros Hnd.
  destruct (filter P table) as [|x [|y l]] eqn:Hf; simpl; [lia|lia|].
  exfalso.
  assert (x ∈ filter P table) as Hx by (rewrite Hf; left).
  assert (y ∈ filter P table) as Hy by (rewrite Hf; right; left).
  apply list_elem_of_filter in Hx as [HPx Hx].
  apply list_elem_of_filter in Hy as [HPy Hy].
  assert (x = y) as ->.
  { apply (NoDup_key_inj table); auto. rewrite !P_key by assumption. done. }
  assert (NoDup (filter P table)) as Hnd'.
  { apply NoDup_filter. exact (NoDup_fmap_1 key table Hnd). }
  rewrite Hf in Hnd'. apply NoDup_cons in Hnd' as [Hny _].
  apply Hny. left.
Qed.

(** [objects.get] on a unique key finds the one row or none. *)
Lemma objects_get_unique (table : list A) :
  NoDup (key <$> table) ->
  match objects_get P table with
  | DoesNotExist => forall x, x ∈ table -> ~ P x
  | Found x => x ∈ table /\ P x
  | MultipleObjectsReturned => False
  end.
Proof.
  intros Hnd. pose proof (filter_at_most_one table Hnd) as Hlen.
  unfold objects_get.
  destruct (filter P table) as [|x [|y l]] eqn:Hf; simpl in Hlen.
  - intros x Hx HP. exact (filter_nil_not_elem_of P table x Hf HP Hx).
  - assert (x ∈ filter P table) as Hx by (rewrite Hf; left).
    apply list_elem_of_filter in Hx as [HP Hx]. auto.
  - lia.
Qed.

End Lookups.

(** ** Token exchange *)

Section TokenExchange.
Import Views.
Context `{Tokens} `{Serializers}.

(** C3: a token request that passes the serializer, against users with
    unique names, is answered 404 exactly when no user has the name, 400
    exactly when the user exists and the code is not the user's, and 201
    exactly when the user exists and the code checks; the 201 response
    carries the token of that user, and no other status occurs. *)
Theorem GetJWTokenView_post_outcomes (request_data : RequestData)
    (data : TokenData) (db : DB) :
  GetJWTokenSerializer request_data = Some data ->
  NoDup (username <$> users db) ->
  let response := GetJWTokenView_post request_data db in
  let known u := u ∈ users db /\ username u = td_username data in
  let code := td_confirmation_code data in
  (status response = HTTP_404_NOT_FOUND <-> ~ exists u, known u) /\
  (status response = HTTP_400_BAD_REQUEST <->
     exists u, known u /\ check_token u code = false) /\
  (status response = HTTP_201_CREATED <->
     exists u, known u /\ check_token u code = true) /\
  (forall u, known u -> check_token u code = true ->
     response = mkResponse HTTP_201_CREATED
                  [("token", AccessToken_for_user u)]) /\
  (status response = HTTP_404_NOT_FOUND \/
   status response = HTTP_400_BAD_REQUEST \/
   status response = HTTP_201_CREATED).
Proof.
  intros Hvalid Hnd response known code.
  subst response. unfold GetJWTokenView_post. rewrite Hvalid.
  lazymatch goal with
  | |- context [@objects_get _ ?P ?D (users db)] =>
      pose proof (@objects_get_unique _ _ username (td_username data) P D
                    (fun _ Hu => Hu) (users db) Hnd) as Hget;
      destruct (@objects_get _ P D (users db)) as [x| |]
  end; [| |destruct Hget].
  - destruct Hget as [Hx Hname].
    assert (forall u, known u -> u = x) as Huniq.
    { intros u [Hu Hun]. apply (NoDup_key_inj username (users db)); auto.
      congruence. }
    fold code. destruct (check_token x code) eqn:Hcheck; simpl.
    + repeat split; try discriminate; try (right; right; reflexivity).
      * intros Hnone. destruct Hnone. exists x. split; assumption.
      * intros (u & Hu & Hno). rewrite (Huniq u Hu) in Hno. congruence.
      * exists x. repeat split; assumption.
      * intros u Hu _. rewrite (Huniq u Hu). reflexivity.
    + repeat split; try discriminate; try (right; left; reflexivity).
      * intros Hnone. destruct Hnone. exists x. split; assumption.
      * exists x. repeat split; assumption.
      * intros (u & Hu & Hyes). rewrite (Huniq u Hu) in Hyes. congruence.
      * intros u Hu Hyes. rewrite (Huniq u Hu) in Hyes. congruence.
  - assert (forall u, ~ known u) as Hnone.
    { intros u [Hu Hun]. exact (Hget u Hu Hun). }
    simpl. split; [|split; [|split; [|split]]].
    + split; [|reflexivity]. intros _ (u & Hu). exact (Hnone u Hu).
    + split; [discriminate|]. intros (u & Hu & _). destruct (Hnone u Hu).
    + split; [discriminate|]. intros (u & Hu & _). destruct (Hnone u Hu).
    + intros u Hu. destruct (Hnone u Hu).
    + left. reflexivity.
Qed.

End TokenExchange.

Lemma GetJWTokenView_post_outcomes_witness :
  let request_data : Views.RequestData :=
    <["username" := "alice"]>
      (<["confirmation_code" := "code-alice-alice@example.org"]> ∅) in
  NoDup (Views.username <$> Views.users Fixtures.db0) /\
  Views.GetJWTokenView_post (H := Fixtures.DemoTokens)
    (H0 := Fixtures.SpecSerializers) request_data Fixtures.db0
  = Views.mkResponse 201 [("token", "jwt-alice")].
Proof.
  intros request_data.
  assert (NoDup (Views.username <$> Views.users Fixtures.db0)) as Hnd.
  { compute_done. }
  split; [exact Hnd|].
  destruct (GetJWTokenView_post_outcomes (H := Fixtures.DemoTokens)
              (H0 := Fixtures.SpecSerializers) request_data
              (Views.mkTokenData "alice" "code-alice-alice@example.org")
              Fixtures.db0 eq_refl Hnd) as (_ & _ & _ & Htoken & _).
  apply (Htoken Fixtures.alice).
  - split; [left|reflexivity].
  - reflexivity.
Defined.

(** ** Sign-up *)

Section SignUpReserved.
Import Views Fixtures.
Context `{Tokens}.

Lemma next_id_fresh (ids : list Z) : next_id ids ∉ ids.
Proof.
  assert (forall x, x ∈ ids -> (x <= foldr Z.max 0 ids)%Z) as Hmax.
  { induction ids as [|i ids IH]; intros x; [inversion 1|].
    intros [->|Hx]%elem_of_cons; simpl; [lia|].
    specialize (IH x Hx). lia. }
  intros Hin. apply Hmax in Hin. unfold next_id in Hin. lia.
Qed.

(** C7: a sign-up whose username is the reserved [me] is answered 400
    whatever the e-mail address, and the store - its users and the mails
    sent - stays as it was. *)
Theorem SignUpView_post_me (request_data : RequestData) (db : DB) :
  request_data !! "username" = Some "me" ->
  SignUpView_post request_data db
  = (db, mkResponse HTTP_400_BAD_REQUEST []).
Proof.
  intros Hme. unfold SignUpView_post. simpl. unfold get_code.
  rewrite Hme. simpl. destruct (request_data !! "email"); reflexivity.
Qed.

End SignUpReserved.

Section SignUp.
Import Views.
Context `{Tokens} `{Serializers}.

(** The sign-up serializer of the fixtures accepts a request whose name
    and address no stored user has. *)
Lemma sign_up_unique (stored : list User) (request_data : RequestData)
    (data : SignUpData) :
  Fixtures.get_code request_data = Some data ->
  (forall u, u ∈ stored ->
     username u <> sd_username data /\ email u <> sd_email data) ->
  Fixtures.sign_up stored request_data = Some data.
Proof.
  intros Hvalid Hfree. unfold Fixtures.sign_up. rewrite Hvalid. simpl.
  rewrite decide_True; [reflexivity|]. apply Forall_forall. exact Hfree.
Qed.

(** C8: a sign-up that passes the request validation, against users with
    unique names: when a user with exactly this name and address is
    stored, no user is added, a code made for that user is mailed to the
    user's address, and the answer is 200 with the name and address
    submitted; when there is no such user and the sign-up serializer,
    which checks that both fields are unique, accepts the request, one
    user with the validated name and address is added under a new id, a
    code made for the new user is mailed to the address, and the answer
    is again 200 with both. *)
Theorem SignUpView_post_valid (request_data : RequestData)
    (data : SignUpData) (db : DB) :
  GetCodeSerializer request_data = Some data ->
  NoDup (username <$> users db) ->
  let code_mail u :=
    mkMail "Api_Yamdb confirmation_code"
      ("confirmation_code: " +:+ make_token u) CODE_EMAIL [email u] in
  let echo d :=
    mkResponse HTTP_200_OK
      [("username", sd_username d); ("email", sd_email d)] in
  (forall u, u ∈ users db ->
     username u = sd_username data -> email u = sd_email data ->
     exists db',
       SignUpView_post request_data db = (db', echo data) /\
       users db' = users db /\
       outbox db' = outbox db ++ [code_mail u]) /\
  (forall data',
     (forall u, u ∈ users db ->
        ~ (username u = sd_username data /\ email u = sd_email data)) ->
     SignUpSerializer (users db) request_data = Some data' ->
     exists db' new,
       SignUpView_post request_data db = (db', echo data') /\
       users db' = users db ++ [new] /\
       username new = sd_username data' /\ email new = sd_email data' /\
       (user_id new ∉ user_id <$> users db) /\
       outbox db' = outbox db ++ [code_mail new]).
Proof.
  intros Hvalid Hnd code_mail echo. unfold SignUpView_post.
  rewrite Hvalid.
  lazymatch goal with
  | |- context [@objects_get _ ?P ?D (users db)] =>
      pose proof (@objects_get_unique _ _ username (sd_username data) P D
                    (fun _ Hu => proj1 Hu) (users db) Hnd) as Hget;
      destruct (@objects_get _ P D (users db)) as [x| |]
  end; [| |destruct Hget].
  - destruct Hget as [Hx Hmatch]. split.
    + intros u Hu Hun Hum.
      assert (u = x) as ->.
      { apply (NoDup_key_inj username (users db)); auto.
        destruct Hmatch. congruence. }
      eexists. split; [reflexivity|]. split; reflexivity.
    + intros data' Hnone. destruct (Hnone x Hx Hmatch).
  - split.
    + intros u Hu Hun Hum. destruct (Hget u Hu). split; assumption.
    + intros data' _ ->.
      eexists. eexists. split; [reflexivity|]. simpl.
      repeat split. apply next_id_fresh.
Qed.

End SignUp.

Lemma SignUpView_post_me_witness :
  let request_data : Views.RequestData :=
    <["username" := "me"]> (<["email" := "me@example.org"]> ∅) in
  request_data !! "username" = Some "me" /\
  Views.SignUpView_post (H := Fixtures.DemoTokens)
    (H0 := Fixtures.SpecSerializers) request_data Fixtures.db0
  = (Fixtures.db0, Views.mkResponse 400 []).
Proof.
  intros request_data. split; [reflexivity|].
  apply (SignUpView_post_me (H := Fixtures.DemoTokens)). reflexivity.
Defined.

Lemma SignUpView_post_valid_witness :
  let request_data : Views.RequestData :=
    <["username" := "dave"]> (<["email" := "dave@example.org"]> ∅) in
  NoDup (Views.username <$> Views.users Fixtures.db0) /\
  (exists db' new,
     Views.SignUpView_post (H := Fixtures.DemoTokens)
       (H0 := Fixtures.SpecSerializers) request_data Fixtures.db0
     = (db', Views.mkResponse 200
               [("username", "dave"); ("email", "dave@example.org")]) /\
     Views.users db' = Views.users Fixtures.db0 ++ [new] /\
     Views.username new = "dave" /\
     Views.user_id new = 4%Z).
Proof.
  intros request_data.
  assert (NoDup (Views.username <$> Views.users Fixtures.db0)) as Hnd
    by compute_done.
  split; [exact Hnd|].
  destruct (SignUpView_post_valid (H := Fixtures.DemoTokens)
              (H0 := Fixtures.SpecSerializers) request_data
              (Views.mkSignUpData "dave" "dave@example.org")
              Fixtures.db0 eq_refl Hnd) as [_ Hnew].
  destruct (Hnew (Views.mkSignUpData "dave" "dave@example.org"))
    as (db' & new & Hpost & Husers & Hname & _).
  { apply Forall_forall. compute_done. }
  { apply sign_up_unique; [reflexivity|]. apply Forall_forall.
    compute_done. }
  exists db', new. split; [exact Hpost|]. split; [exact Husers|].
  split; [exact Hname|].
  vm_compute in Hpost. injection Hpost as <-.
  vm_compute in Husers. injection Husers as <-. reflexivity.
Defined.

(** ** The rating of a title *)

Section Filters.
Context {A : Type} (P : A -> Prop) `{forall x, Decision (P x)}.

Lemma filter_all (l : list A) :
  (forall x, x ∈ l -> P x) -> filter P l = l.
Proof.
  induction l as [|a l IH]; intros Hall; [reflexivity|].
  rewrite filter_cons_True by (apply Hall; left).
  f_equal. apply IH. intros x Hx. apply Hall. right. exact Hx.
Qed.

Lemma filter_none (l : list A) :
  (forall x, x ∈ l -> ~ P x) -> filter P l = [].
Proof.
  induction l as [|a l IH]; intros Hnone; [reflexivity|].
  rewrite filter_cons_False by (apply Hnone; left).
  apply IH. intros x Hx. apply Hnone. right. exact Hx.
Qed.

End Filters.

Section Lookup404.
Import Views.
Context {A : Type} (P : A -> Prop) `{forall x, Decision (P x)}.

Lemma get_object_or_404_missing (table : list A) :
  (forall x, x ∈ table -> ~ P x) ->
  get_object_or_404 P table = inl Http404.
Proof.
  intros Hnone. unfold get_object_or_404, objects_get.
  rewrite (filter_none P table Hnone). reflexivity.
Qed.

Lemma get_object_or_404_found (table : list A) (x : A) :
  get_object_or_404 P table = inr x -> x ∈ table /\ P x.
Proof.
  unfold get_object_or_404, objects_get.
  destruct (filter P table) as [|y [|z l]] eqn:Hf; try discriminate.
  intros [= ->].
  assert (x ∈ filter P table) as Hx by (rewrite Hf; left).
  apply list_elem_of_filter in Hx as [HP Hx]. auto.
Qed.

End Lookup404.

Section Rating.
Import Views.

(** The joined rows of one title id are the joined rows of the titles
    with that id. *)
Lemma filter_left_join (i : Z) (ts : list Title) (rs : list Review) :
  filter (fun row : Title * option Review => title_id row.1 = i)
    (left_join ts rs)
  = filter (fun t => title_id t = i) ts ≫= join_reviews rs.
Proof.
  unfold left_join. induction ts as [|a ts IH]; [reflexivity|].
  rewrite bind_cons, filter_app, IH, filter_cons.
  assert (forall row, row ∈ join_reviews rs a -> row.1 = a) as Hrows.
  { intros row. unfold join_reviews.
    destruct (filter _ rs) as [|r l].
    - intros ->%list_elem_of_singleton. reflexivity.
    - intros (r' & -> & _)%list_elem_of_fmap. reflexivity. }
  destruct (decide (title_id a = i)) as [Ha|Ha].
  - rewrite bind_cons. f_equal.
    apply filter_all. intros row Hrow.
    rewrite (Hrows row Hrow). exact Ha.
  - rewrite filter_none; [reflexivity|]. intros row Hrow.
    rewrite (Hrows row Hrow). exact Ha.
Qed.

(** The titles with the id of a stored title: that title alone. *)
Lemma filter_title_id (ts : list Title) (t : Title) :
  NoDup (title_id <$> ts) -> t ∈ ts ->
  filter (fun t' => title_id t' = title_id t) ts = [t].
Proof.
  intros Hnd Ht.
  pose proof (filter_at_most_one title_id (title_id t)
                (fun t' => title_id t' = title_id t) (fun _ Ht' => Ht')
                ts Hnd) as Hlen.
  assert (t ∈ filter (fun t' => title_id t' = title_id t) ts) as Hin.
  { apply list_elem_of_filter. split; [reflexivity|exact Ht]. }
  destruct (filter _ ts) as [|x [|y l]]; simpl in Hlen; [inversion Hin| |lia].
  apply list_elem_of_singleton in Hin as ->. reflexivity.
Qed.

Lemma omap_Some (scores : list Z) : omap id (Some <$> scores) = scores.
Proof.
  induction scores as [|x l IH]; [reflexivity|].
  rewrite fmap_cons. cbn [omap list_omap id]. f_equal. exact IH.
Qed.

(** The average of a column without NULLs is one division of doubles. *)
Lemma Avg_scores (scores : list Z) :
  Avg (Some <$> scores) = rounded_mean scores.
Proof.
  unfold Avg, rounded_mean. rewrite omap_Some.
  destruct scores; reflexivity.
Qed.

(** The rating of a row of the queryset, as the average over the scores
    of the reviews of its title. *)
Lemma queryset_rating_exact (db : DB) (t : Title)
    (rating : option PrimFloat.float) :
  NoDup (title_id <$> titles db) ->
  (t, rating) ∈ TitleViewSet_queryset db ->
  t ∈ titles db /\ rating = Avg (Some <$> scores_of t db).
Proof.
  intros Hnd Hin. unfold TitleViewSet_queryset in Hin.
  rewrite merge_sort_Permutation in Hin. unfold annotate_rating in Hin.
  apply list_elem_of_fmap in Hin as (t' & [= -> ->] & Ht).
  split; [exact Ht|].
  rewrite filter_left_join, (filter_title_id _ _ Hnd Ht).
  rewrite bind_cons. change ([] ≫= join_reviews (reviews db))
    with (@nil (Title * option Review)).
  rewrite app_nil_r. unfold join_reviews, scores_of.
  destruct (filter _ (reviews db)) as [|r l]; [reflexivity|].
  rewrite <- !list_fmap_compose. reflexivity.
Qed.

(** The rows that pass the filter keep the unique ids of the titles. *)
Lemma filter_queryset_ids (F : Title * option PrimFloat.float -> bool)
    (db : DB) :
  NoDup (title_id <$> titles db) ->
  NoDup ((fun row : Title * option PrimFloat.float => title_id row.1)
           <$> TitleViewSet_filter_queryset F db).
Proof.
  intros Hnd. unfold TitleViewSet_filter_queryset.
  eapply sublist_NoDup; [|apply fmap_sublist, sublist_filter].
  unfold TitleViewSet_queryset. rewrite merge_sort_Permutation.
  unfold annotate_rating. rewrite <- list_fmap_compose. exact Hnd.
Qed.

(** What holds of every row of the queryset. *)
Lemma queryset_row (db : DB) (t : Title) (rating : option PrimFloat.float) :
  NoDup (title_id <$> titles db) ->
  (t, rating) ∈ TitleViewSet_queryset db ->
  t ∈ titles db /\
  rating = rounded_mean (scores_of t db) /\
  (rating = None <->
   forall r, r ∈ reviews db -> review_title r <> title_id t).
Proof.
  intros Hnd Hin.
  destruct (queryset_rating_exact db t rating Hnd Hin) as [Ht ->].
  rewrite Avg_scores. split; [exact Ht|]. split; [reflexivity|].
  unfold scores_of, rounded_mean.
  destruct (filter _ (reviews db)) as [|r l] eqn:Hf; simpl.
  - split; [|reflexivity]. intros _ r Hr Htitle.
    exact (filter_nil_not_elem_of _ _ r Hf Htitle Hr).
  - split; [discriminate|]. intros Hnone.
    assert (r ∈ filter (fun r => review_title r = title_id t)
                  (reviews db)) as Hr by (rewrite Hf; left).
    apply list_elem_of_filter in Hr as [Htitle Hr].
    destruct (Hnone r Hr Htitle).
Qed.

Lemma queryset_has_title (db : DB) (t : Title) :
  t ∈ titles db ->
  (t, Avg ((fun row : Title * option Review => review_score <$> row.2) <$>
           filter (fun row : Title * option Review =>
                     title_id row.1 = title_id t)
                  (left_join (titles db) (reviews db))))
    ∈ TitleViewSet_queryset db.
Proof.
  intros Ht. unfold TitleViewSet_queryset.
  rewrite merge_sort_Permutation.
  unfold annotate_rating. apply list_elem_of_fmap.
  exists t. split; [reflexivity|exact Ht].
Qed.

Section ReadActions.
Context {TitleData : Type}.
Variable TitlePermission : Method -> Requester -> bool.
Variable TitleObjectPermission : Method -> Requester -> Title -> bool.
Variable TitleFilter : Title * option PrimFloat.float -> bool.
Variable PAGE_SIZE : option positive.
Variable TitleReadSerializer : Title * option PrimFloat.float -> TitleData.

Lemma paginate_queryset_rows {A} (page : positive) (rows shown : list A) :
  paginate_queryset PAGE_SIZE page rows = inr shown ->
  forall x, x ∈ shown -> x ∈ rows.
Proof.
  unfold paginate_queryset. destruct PAGE_SIZE as [size|].
  - destruct (decide _) as [_|_]; [|discriminate].
    intros [= <-] x Hx.
    eapply elem_of_sublist; [|apply sublist_drop].
    eapply elem_of_sublist; [exact Hx|apply sublist_take].
  - intros [= <-] x Hx. exact Hx.
Qed.

(** C5 (as amended): for titles with unique ids, every row of the
    queryset is a stored title together with a double, the sum of the
    scores of the reviews of that title divided by their number - the
    arithmetic mean as one division in double precision rounds it -,
    and without a rating exactly when the title has no review; every
    stored title has a row.  What [list] and [retrieve] return is the
    serializer's picture of such rows: of rows that pass the filter on
    the page asked for, and of the row with the id of the path, which
    is returned for every stored title that the permission and the
    filter let through.  The rating is recomputed from the reviews
    stored at the time of the request. *)
Theorem TitleViewSet_queryset_rating (db : DB) :
  NoDup (title_id <$> titles db) ->
  (forall t rating, (t, rating) ∈ TitleViewSet_queryset db ->
     t ∈ titles db /\
     rating = rounded_mean (scores_of t db) /\
     (rating = None <->
      forall r, r ∈ reviews db -> review_title r <> title_id t)) /\
  (forall t, t ∈ titles db ->
     exists rating, (t, rating) ∈ TitleViewSet_queryset db) /\
  (forall request_user page items,
     TitleViewSet_list TitlePermission TitleFilter PAGE_SIZE
       TitleReadSerializer request_user page db = inr items ->
     forall item, item ∈ items ->
     exists t rating,
       item = TitleReadSerializer (t, rating) /\
       t ∈ titles db /\
       rating = rounded_mean (scores_of t db) /\
       (rating = None <->
        forall r, r ∈ reviews db -> review_title r <> title_id t)) /\
  (forall request_user kw_pk item,
     TitleViewSet_retrieve TitlePermission TitleObjectPermission
       TitleFilter TitleReadSerializer request_user kw_pk db = inr item ->
     exists t rating,
       item = TitleReadSerializer (t, rating) /\
       title_id t = kw_pk /\
       t ∈ titles db /\
       rating = rounded_mean (scores_of t db) /\
       (rating = None <->
        forall r, r ∈ reviews db -> review_title r <> title_id t)) /\
  (forall request_user t,
     t ∈ titles db ->
     TitlePermission GET request_user = true ->
     TitleObjectPermission GET request_user t = true ->
     TitleFilter (t, rounded_mean (scores_of t db)) = true ->
     TitleViewSet_retrieve TitlePermission TitleObjectPermission
       TitleFilter TitleReadSerializer request_user (title_id t) db
     = inr (TitleReadSerializer (t, rounded_mean (scores_of t db)))).
Proof.
  intros Hnd. split; [|split; [|split; [|split]]].
  - intros t rating Hin. exact (queryset_row db t rating Hnd Hin).
  - intros t Ht. eexists. exact (queryset_has_title db t Ht).
  - intros request_user page items. unfold TitleViewSet_list.
    destruct (TitleViewSet_check_permissions _ _ _) as [e|[]];
      [discriminate|]. simpl.
    destruct (paginate_queryset _ _ _) as [e|shown] eqn:Hpage;
      [discriminate|]. simpl.
    intros [= <-] item ([t rating] & -> & Hrow)%list_elem_of_fmap.
    apply (paginate_queryset_rows _ _ _ Hpage) in Hrow.
    apply list_elem_of_filter in Hrow as [_ Hrow].
    exists t, rating. split; [reflexivity|].
    exact (queryset_row db t rating Hnd Hrow).
  - intros request_user kw_pk item. unfold TitleViewSet_retrieve.
    destruct (TitleViewSet_check_permissions _ _ _) as [e|[]];
      [discriminate|]. simpl.
    destruct (get_object_or_404 _ _) as [e|[t rating]] eqn:Hget;
      [discriminate|]. simpl.
    destruct (TitleObjectPermission _ _ _); [|discriminate].
    intros [= <-].
    apply get_object_or_404_found in Hget as [Hrow Hid].
    apply list_elem_of_filter in Hrow as [_ Hrow].
    exists t, rating. split; [reflexivity|]. split; [exact Hid|].
    exact (queryset_row db t rating Hnd Hrow).
  - intros request_user t Ht Hperm Hobj Hfilter.
    unfold TitleViewSet_retrieve, TitleViewSet_check_permissions.
    rewrite Hperm. simpl.
    pose proof (queryset_has_title db t Ht) as Hin.
    destruct (queryset_row db t _ Hnd Hin) as (_ & Hrating & _).
    rewrite Hrating in Hin.
    assert ((t, rounded_mean (scores_of t db))
              ∈ TitleViewSet_filter_queryset TitleFilter db) as Hrow.
    { apply list_elem_of_filter. split; [exact Hfilter|exact Hin]. }
    pose proof (objects_get_unique
                  (fun row : Title * option PrimFloat.float =>
                     title_id row.1)
                  (title_id t)
                  (fun row => title_id row.1 = title_id t)
                  (fun _ Hrow' => Hrow')
                  (TitleViewSet_filter_queryset TitleFilter db)
                  (filter_queryset_ids TitleFilter db Hnd)) as Hget.
    unfold get_object_or_404.
    destruct (objects_get _ _) as [row| |].
    + destruct Hget as [Hrow' Hid].
      assert (row = (t, rounded_mean (scores_of t db))) as ->.
      { apply (NoDup_key_inj
                 (fun row : Title * option PrimFloat.float =>
                    title_id row.1)
                 (TitleViewSet_filter_queryset TitleFilter db));
          [exact (filter_queryset_ids TitleFilter db Hnd)
          |exact Hrow'|exact Hrow|exact Hid]. }
      simpl. rewrite Hobj. reflexivity.
    + destruct (Hget _ Hrow). reflexivity.
    + destruct Hget.
Qed.

End ReadActions.

End Rating.

Lemma TitleViewSet_queryset_rating_witness :
  let rating :=
    Some (PrimFloat.div (Views.float_of_Z 17) (Views.float_of_Z 2)) in
  NoDup (Views.title_id <$> Views.titles Fixtures.db0) /\
  (Fixtures.solaris, rating) ∈ Views.TitleViewSet_queryset Fixtures.db0 /\
  rating = Views.rounded_mean [7; 10]%Z /\
  Views.rating_eq (rating ≫= Views.exact_value) (Some (17 # 2)%Q) /\
  Views.TitleViewSet_retrieve (fun _ _ => true) (fun _ _ _ => true)
    (fun _ => true) id None 1 Fixtures.db0
  = inr (Fixtures.solaris, rating).
Proof.
  intros rating.
  assert (NoDup (Views.title_id <$> Views.titles Fixtures.db0)) as Hnd
    by compute_done.
  assert ((Fixtures.solaris, rating)
            ∈ Views.TitleViewSet_queryset Fixtures.db0) as Hin
    by (vm_compute; left).
  split; [exact Hnd|]. split; [exact Hin|].
  destruct (TitleViewSet_queryset_rating (fun _ _ => true)
              (fun _ _ _ => true) (fun _ => true) None id
              Fixtures.db0 Hnd) as (Hrating & _ & _ & _ & Hretrieve).
  destruct (Hrating Fixtures.solaris rating Hin) as (_ & Hmean & _).
  split; [exact Hmean|]. split; [vm_compute; reflexivity|].
  refine (Hretrieve None Fixtures.solaris _ eq_refl eq_refl eq_refl).
  vm_compute. left.
Defined.

(** C5 (as stated) fails: three reviews that score 1, 1 and 2 give the
    title the double 1.3333333333333333, which stands for
    6004799503160661 / 2^52 and not for the mean 4/3. *)
Lemma rating_is_mean_thirds : ~ Views.rating_is_mean Fixtures.db_thirds.
Proof.
  intros Hmean.
  specialize (Hmean Fixtures.solaris
                (Some (PrimFloat.div (Views.float_of_Z 4)
                                     (Views.float_of_Z 3)))).
  assert ((Fixtures.solaris,
           Some (PrimFloat.div (Views.float_of_Z 4) (Views.float_of_Z 3)))
            ∈ Views.TitleViewSet_queryset Fixtures.db_thirds) as Hin
    by (vm_compute; left).
  specialize (Hmean Hin). vm_compute in Hmean. discriminate.
Qed.

(** The double of that rating, and the number it stands for. *)
Example rating_thirds :
  Views.rounded_mean [1; 1; 2]%Z
  = Some (PrimFloat.div (Views.float_of_Z 4) (Views.float_of_Z 3)) /\
  Views.exact_value (PrimFloat.div (Views.float_of_Z 4) (Views.float_of_Z 3))
  = Some (6004799503160661 # 4503599627370496)%Q.
Proof. split; vm_compute; reflexivity. Qed.

(** ** Reviews and comments *)

Section Parents.
Import Views.
Variable ReviewSerializer :
  DB -> Requester -> Z -> RequestData -> result ReviewData.
Variable ReviewSerializer_partial : RequestData -> option ReviewPatch.
Variable CommentSerializer :
  DB -> Requester -> Z -> Z -> RequestData -> result string.
Variable CommentSerializer_partial : RequestData -> option CommentPatch.
Variable PAGE_SIZE : option positive.

Lemma ReviewViewSet_get_title_missing (kw_title_id : Z) (db : DB) :
  (forall t, t ∈ titles db -> title_id t <> kw_title_id) ->
  ReviewViewSet_get_title kw_title_id db = inl Http404.
Proof. intros Hnone. apply get_object_or_404_missing. exact Hnone. Qed.

Lemma CommentViewSet_get_review_missing (kw_title_id kw_review_id : Z)
    (db : DB) :
  (forall r, r ∈ reviews db ->
     ~ (review_title r = kw_title_id /\ review_id r = kw_review_id)) ->
  CommentViewSet_get_review kw_title_id kw_review_id db = inl Http404.
Proof. intros Hnone. apply get_object_or_404_missing. exact Hnone. Qed.

Lemma ReviewViewSet_get_title_found (title : Title) (db : DB) :
  NoDup (title_id <$> titles db) -> title ∈ titles db ->
  ReviewViewSet_get_title (title_id title) db = inr title.
Proof.
  intros Hnd Ht. unfold ReviewViewSet_get_title, get_object_or_404.
  pose proof (objects_get_unique title_id (title_id title)
                (fun t => title_id t = title_id title)
                (fun _ Ht' => Ht') (titles db) Hnd) as Hget.
  destruct (objects_get _ _) as [t| |].
  - destruct Hget as [Ht' Hid].
    rewrite (NoDup_key_inj title_id (titles db) t title Hnd Ht' Ht Hid).
    reflexivity.
  - destruct (Hget title Ht). reflexivity.
  - destruct Hget.
Qed.

Lemma CommentViewSet_get_review_found (review : Review) (db : DB) :
  NoDup (review_id <$> reviews db) -> review ∈ reviews db ->
  CommentViewSet_get_review (review_title review) (review_id review) db
  = inr review.
Proof.
  intros Hnd Hr. unfold CommentViewSet_get_review, get_object_or_404.
  pose proof (objects_get_unique review_id (review_id review)
                (fun r => review_title r = review_title review /\
                          review_id r = review_id review)
                (fun _ Hr' => proj2 Hr') (reviews db) Hnd) as Hget.
  destruct (objects_get _ _) as [r| |].
  - destruct Hget as [Hr' [_ Hid]].
    rewrite (NoDup_key_inj review_id (reviews db) r review Hnd Hr' Hr Hid).
    reflexivity.
  - destruct (Hget review Hr). split; reflexivity.
  - destruct Hget.
Qed.

(** A mutating method passes the permission of the view only with a
    user. *)
Lemma has_permission_user (action : Action) (request_user : Requester) :
  has_permission (action_method action) request_user = true ->
  (exists request_data, action = Action_create request_data) ->
  exists user, request_user = Some user.
Proof.
  intros Hperm [request_data ->]. destruct request_user as [user|].
  - exists user. reflexivity.
  - vm_compute in Hperm. discriminate.
Qed.


End Parents.



(** The answers to that request, and to a creation whose body is
    refused, under a title that does not exist. *)
Example destroy_anonymous_401 :
  Views.ReviewViewSet_destroy None 9 1 Fixtures.db0
  = (Fixtures.db0, Views.mkResponse 401 []).
Proof. reflexivity. Qed.

Example create_refused_body_400 :
  Views.ReviewViewSet_dispatch Fixtures.review_body (fun _ => None)
    (Some 10%positive) (Views.Action_create ∅)
    (Some Fixtures.alice) 9 Fixtures.db0
  = (Fixtures.db0, Views.mkResponse 400 []).
Proof. reflexivity. Qed.

Section OneReviewPerAuthor.
Import Views.

Lemma Review_insert_unique (r : Review) (rs rs' : list Review) :
  Review_insert r rs = inr rs' ->
  NoDup (review_key <$> rs) -> NoDup (review_key <$> rs').
Proof.
  unfold Review_insert. destruct (decide _) as [|Hfree]; [discriminate|].
  intros [= <-] Hnd. rewrite fmap_app. apply NoDup_app.
  split; [exact Hnd|]. split; [|apply NoDup_singleton].
  intros key (r' & Hkey & Hr')%list_elem_of_fmap Hin.
  apply list_elem_of_singleton in Hin. subst key.
  apply Hfree, Exists_exists. exists r'. split; [exact Hr'|].
  unfold review_key in Hin. injection Hin as Ht Ha. auto.
Qed.

Lemma Review_bulk_insert_unique (new rs rs' : list Review) :
  Review_bulk_insert new rs = inr rs' ->
  NoDup (review_key <$> rs) -> NoDup (review_key <$> rs').
Proof.
  revert rs. induction new as [|r new IH]; intros rs; simpl.
  - intros [= <-]. auto.
  - destruct (Review_insert r rs) as [e|rs1] eqn:Hins; [discriminate|].
    simpl. intros Hrest Hnd.
    exact (IH _ Hrest (Review_insert_unique _ _ _ Hins Hnd)).
Qed.

Lemma perform_update_keys (obj : Review) (p : ReviewPatch) (db : DB) :
  review_key <$> reviews (ReviewViewSet_perform_update obj p db)
  = review_key <$> reviews db.
Proof.
  simpl. rewrite <- list_fmap_compose. apply list_fmap_ext.
  intros i r _. simpl. destruct (decide _); reflexivity.
Qed.

Lemma perform_destroy_keys (obj : Review) (db : DB) :
  review_key <$> reviews (ReviewViewSet_perform_destroy obj db)
  `sublist_of` review_key <$> reviews db.
Proof. simpl. apply fmap_sublist, sublist_filter. Qed.

(** C6: in every state of the store reached from the empty one, no two
    reviews share title and author; and creating a review for a title
    that exists, by an author who has already reviewed it, raises the
    uniqueness violation and returns no new store. *)
Theorem one_review_per_title_and_author (db : DB) :
  reachable db ->
  unique_reviews db /\
  (forall kw_title_id request_user body title r,
     ReviewViewSet_get_title kw_title_id db = inr title ->
     r ∈ reviews db ->
     review_title r = title_id title ->
     review_author r = user_id request_user ->
     ReviewViewSet_perform_create kw_title_id request_user body db
     = inl IntegrityError).
Proof.
  intros Hreach. split.
  - unfold unique_reviews.
    induction Hreach as
      [|db db' kw u body _ IH Hcreate|db new rs _ IH Hbulk
       |db obj p _ IH|db obj _ IH|db db' _ IH Hsame].
    + constructor.
    + unfold ReviewViewSet_perform_create in Hcreate.
      destruct (ReviewViewSet_get_title kw db) as [e|title];
        [discriminate|].
      simpl in Hcreate. unfold Review_objects_create in Hcreate.
      destruct (Review_insert _ (reviews db)) as [e|rs] eqn:Hins;
        [discriminate|].
      simpl in Hcreate. injection Hcreate as <-. simpl.
      exact (Review_insert_unique _ _ _ Hins IH).
    + simpl. exact (Review_bulk_insert_unique _ _ _ Hbulk IH).
    + rewrite perform_update_keys. exact IH.
    + exact (sublist_NoDup _ _ IH (perform_destroy_keys obj db)).
    + rewrite Hsame. exact IH.
  - intros kw u body title r Htitle Hr Ht Ha.
    unfold ReviewViewSet_perform_create. rewrite Htitle. simpl.
    unfold Review_objects_create, Review_insert.
    rewrite decide_True; [reflexivity|].
    apply Exists_exists. exists r. simpl. auto.
Qed.

End OneReviewPerAuthor.

Lemma db0_reachable : Views.reachable Fixtures.db0.
Proof.
  set (stocked := Views.mkDB (Views.users Fixtures.db0)
                    (Views.titles Fixtures.db0) [] [] []).
  assert (Views.reachable stocked) as Hstocked.
  { apply (Views.reach_other (Views.mkDB [] [] [] [] []));
      [apply Views.reach_empty|reflexivity]. }
  apply (Views.reach_create
           (Views.set_reviews [Fixtures.alice_on_solaris] stocked)
           Fixtures.db0 1 Fixtures.bob (Views.mkReviewData "great" 10));
    [|reflexivity].
  apply (Views.reach_create stocked _ 1 Fixtures.alice
           (Views.mkReviewData "slow" 7)); [exact Hstocked|reflexivity].
Qed.

Lemma one_review_per_title_and_author_witness :
  Views.reachable Fixtures.db0 /\
  Views.unique_reviews Fixtures.db0 /\
  Views.ReviewViewSet_perform_create 1 Fixtures.alice
    (Views.mkReviewData "again" 9) Fixtures.db0
  = inl Views.IntegrityError.
Proof.
  split; [exact db0_reachable|].
  destruct (one_review_per_title_and_author Fixtures.db0 db0_reachable)
    as [Hunique Hsecond].
  split; [exact Hunique|].
  apply (Hsecond 1%Z Fixtures.alice _ Fixtures.solaris
           Fixtures.alice_on_solaris).
  - reflexivity.
  - left.
  - reflexivity.
  - reflexivity.
Defined.

(** ** Permissions *)

Section Permissions.
Import Views.
Variable ReviewSerializer_partial : RequestData -> option ReviewPatch.

Lemma has_object_permission_safe (method : Method)
    (request_user : Requester) (author : Z) :
  method ∈ SAFE_METHODS ->
  has_object_permission method request_user author = true.
Proof.
  intros Hsafe. unfold has_object_permission.
  rewrite bool_decide_eq_true_2 by exact Hsafe. reflexivity.
Qed.

Lemma has_object_permission_unsafe (method : Method)
    (request_user : Requester) (author : Z) :
  method ∉ SAFE_METHODS ->
  has_object_permission method request_user author = true <->
  exists u, request_user = Some u /\
    (user_id u = author \/ role u = MODERATOR \/ role u = ADMIN \/
     is_superuser u = true).
Proof.
  intros Hunsafe. unfold has_object_permission.
  rewrite bool_decide_eq_false_2 by exact Hunsafe. simpl.
  destruct request_user as [u|].
  - rewrite !orb_true_iff, !bool_decide_eq_true. split.
    + intros Hallowed. exists u. tauto.
    + intros (u' & [= <-] & Hallowed). tauto.
  - split; [discriminate|]. intros (u' & Hu & _). discriminate.
Qed.

(** C4: read-only methods are always allowed on an object; a mutating
    method is allowed exactly for the author of the object, a moderator,
    an admin or a superuser; and a signed-in user who is none of these
    gets 403, with the store untouched, for PATCH and DELETE of a review
    written by someone else, while DELETE of the user's own review
    removes it with 204 and PATCH of it with a valid body updates it with
    200. *)
Theorem SafeOrAuthorOrExceedingRoleOnly_reviews :
  (forall method request_user author,
     method ∈ SAFE_METHODS ->
     has_object_permission method request_user author = true) /\
  (forall method request_user author,
     method ∉ SAFE_METHODS ->
     (has_object_permission method request_user author = true <->
      exists u, request_user = Some u /\
        (user_id u = author \/ role u = MODERATOR \/ role u = ADMIN \/
         is_superuser u = true))) /\
  (forall u db kw_title_id kw_pk queryset obj request_data,
     role u = USER -> is_superuser u = false ->
     ReviewViewSet_get_queryset kw_title_id db = inr queryset ->
     get_object_or_404 (fun r => review_id r = kw_pk) queryset = inr obj ->
     (review_author obj <> user_id u ->
        ReviewViewSet_destroy (Some u) kw_title_id kw_pk db
          = (db, mkResponse HTTP_403_FORBIDDEN []) /\
        ReviewViewSet_partial_update ReviewSerializer_partial (Some u)
          kw_title_id kw_pk request_data db
          = (db, mkResponse HTTP_403_FORBIDDEN [])) /\
     (review_author obj = user_id u ->
        ReviewViewSet_destroy (Some u) kw_title_id kw_pk db
          = (ReviewViewSet_perform_destroy obj db,
             mkResponse HTTP_204_NO_CONTENT []) /\
        (forall p, ReviewSerializer_partial request_data = Some p ->
           ReviewViewSet_partial_update ReviewSerializer_partial (Some u)
             kw_title_id kw_pk request_data db
           = (ReviewViewSet_perform_update obj p db,
              mkResponse HTTP_200_OK
                [("text", review_text (patch_review p obj))])))).
Proof.
  split; [exact has_object_permission_safe|].
  split; [exact has_object_permission_unsafe|].
  intros u db kw_title_id kw_pk queryset obj request_data Hrole Hsuper
    Hqueryset Hobj.
  assert (forall method, method = PATCH \/ method = DELETE ->
            has_object_permission method (Some u) (review_author obj)
            = bool_decide (user_id u = review_author obj)) as Hperm.
  { intros method Hmethod. unfold has_object_permission.
    rewrite Hrole, Hsuper.
    destruct Hmethod as [-> | ->]; simpl;
      rewrite !orb_false_r; reflexivity. }
  unfold ReviewViewSet_destroy, ReviewViewSet_partial_update,
    ReviewViewSet_get_object, check_permissions.
  rewrite Hqueryset. simpl. rewrite Hobj. simpl.
  rewrite !Hperm by auto. split.
  - intros Hother. rewrite bool_decide_eq_false_2 by congruence.
    split; reflexivity.
  - intros Hown. rewrite bool_decide_eq_true_2 by congruence.
    split; [reflexivity|]. intros p ->. reflexivity.
Qed.

End Permissions.

Lemma SafeOrAuthorOrExceedingRoleOnly_reviews_witness :
  Views.role Fixtures.alice = Views.USER /\
  Views.is_superuser Fixtures.alice = false /\
  Views.review_author Fixtures.bob_on_solaris
    <> Views.user_id Fixtures.alice /\
  Views.ReviewViewSet_destroy (Some Fixtures.alice) 1 2 Fixtures.db0
    = (Fixtures.db0, Views.mkResponse 403 []) /\
  Views.ReviewViewSet_destroy (Some Fixtures.alice) 1 1 Fixtures.db0
    = (Views.ReviewViewSet_perform_destroy Fixtures.alice_on_solaris
         Fixtures.db0,
       Views.mkResponse 204 []).
Proof.
  split; [reflexivity|]. split; [reflexivity|].
  split; [discriminate|].
  destruct (SafeOrAuthorOrExceedingRoleOnly_reviews (fun _ => None))
    as (_ & _ & Hreviews).
  split.
  - destruct (Hreviews Fixtures.alice Fixtures.db0 1%Z 2%Z
                (Views.reviews Fixtures.db0) Fixtures.bob_on_solaris ∅
                eq_refl eq_refl eq_refl eq_refl) as [Hother _].
    destruct Hother as [Hdestroy _]; [discriminate|]. exact Hdestroy.
  - destruct (Hreviews Fixtures.alice Fixtures.db0 1%Z 1%Z
                (Views.reviews Fixtures.db0) Fixtures.alice_on_solaris ∅
                eq_refl eq_refl eq_refl eq_refl) as [_ Hown].
    destruct Hown as [Hdestroy _]; [reflexivity|]. exact Hdestroy.
Defined.

(** * Further properties *)

(** ** Characters of Python strings *)

Section PyCharacters.

Lemma substring_app_r (s t : string) (m : nat) :
  String.substring (String.length s) m (s +:+ t) = String.substring 0 m t.
Proof. induction s as [|c s IH]; simpl; [reflexivity|]. exact IH. Qed.

Lemma contains_app_r (s sub : string) : Py.contains sub (s +:+ sub) = true.
Proof.
  apply (contains_substring sub (s +:+ sub) (String.length s)).
  rewrite substring_app_r. apply substring_whole.
Qed.

Lemma prefix_split (p s : string) :
  String.prefix p s = true -> exists rest, s = p +:+ rest.
Proof.
  revert s. induction p as [|a p IH]; intros s; [exists s; reflexivity|].
  destruct s as [|b s]; simpl; [discriminate|].
  destruct (Ascii.ascii_dec a b) as [->|]; [|discriminate].
  intros [rest ->]%IH. exists rest. reflexivity.
Qed.

Lemma contains_split (sub s : string) :
  Py.contains sub s = true -> exists a b, s = a +:+ sub +:+ b.
Proof.
  induction s as [|c s IH].
  - change (Py.contains sub "") with (String.prefix sub "" || false).
    rewrite orb_false_r. intros [rest ->]%prefix_split. exists "", rest.
    reflexivity.
  - change (Py.contains sub (String c s))
      with (String.prefix sub (String c s) || Py.contains sub s).
    intros [[rest ->]%prefix_split|(a & b & ->)%IH]%orb_prop.
    + exists "", rest. reflexivity.
    + exists (String c a), b. reflexivity.
Qed.

Lemma characters_app (l m : list Ascii.ascii) :
  Py.characters (l ++ m) = Py.characters l + Py.characters m.
Proof. unfold Py.characters. rewrite filter_app, length_app. reflexivity. Qed.

Lemma characters_reverse (l : list Ascii.ascii) :
  Py.characters (reverse l) = Py.characters l.
Proof. unfold Py.characters. rewrite filter_reverse, length_reverse. reflexivity. Qed.

Lemma drop_char_split (bytes : list Ascii.ascii) :
  exists removed,
    bytes = removed ++ Py.drop_char bytes /\
    Py.characters removed = 1 `min` Py.characters bytes.
Proof.
  induction bytes as [|b rest (removed & Hrest & Hcount)].
  - exists []. split; reflexivity.
  - simpl. destruct (Py.is_continuation b) eqn:Hb.
    + exists (b :: removed). split; [simpl; congruence|].
      unfold Py.characters in *. rewrite !filter_cons, Hb.
      destruct (decide (true = false)); [discriminate|]. exact Hcount.
    + exists [b]. split; [reflexivity|].
      unfold Py.characters. rewrite !filter_cons, Hb.
      destruct (decide (false = false)); [|contradiction]. simpl. lia.
Qed.

Lemma drop_chars_split (n : nat) (bytes : list Ascii.ascii) :
  exists removed,
    bytes = removed ++ Nat.iter n Py.drop_char bytes /\
    Py.characters removed = n `min` Py.characters bytes.
Proof.
  induction n as [|n (removed & Hbytes & Hcount)].
  - exists []. split; reflexivity.
  - rewrite Nat.iter_succ.
    destruct (drop_char_split (Nat.iter n Py.drop_char bytes))
      as (removed' & Hrest & Hcount').
    exists (removed ++ removed'). split.
    + rewrite <- app_assoc, <- Hrest. exact Hbytes.
    + pose proof (f_equal Py.characters Hbytes) as Hall.
      rewrite characters_app in Hall. rewrite characters_app.
      pose proof (Nat.min_spec n (Py.characters bytes)).
      pose proof (Nat.min_spec (S n) (Py.characters bytes)).
      pose proof (Nat.min_spec 1
                    (Py.characters (Nat.iter n Py.drop_char bytes))).
      lia.
Qed.

End PyCharacters.

(** ** More on the CSV importer *)

Section ImporterCells.
Import ImportCsv.
Context `{ORM}.

Lemma column_field_app_id (name : string) :
  column_field (name +:+ "_id") = name.
Proof.
  unfold column_field. rewrite contains_app_r.
  apply (drop_last_app name "_id"). repeat constructor.
Qed.

Lemma importer_cell_key (st : Store) (model : Model) (field value : string)
    (kv : string * Val Obj) :
  importer_cell st model field value = inr kv -> kv.1 = column_field field.
Proof.
  unfold importer_cell. destruct (bool_decide _).
  - destruct (remote_field_model _ _) as [e|fk]; [discriminate|]. simpl.
    destruct (objects_get _ _ _) as [e|o]; [discriminate|]. simpl.
    intros [= <-]. reflexivity.
  - intros [= <-]. reflexivity.
Qed.

(** X1: the suffix is optional.  For a name without [_id] in it, the
    columns [name] and [name_id] are filed under the same keyword and
    their cells are treated alike: both resolved, or both passed on. *)
Theorem importer_cell_suffix_optional (st : Store) (model : Model)
    (name value : string) :
  Py.contains "_id" name = false ->
  column_field (name +:+ "_id") = column_field name /\
  importer_cell st model (name +:+ "_id") value
  = importer_cell st model name value.
Proof.
  intros Hplain.
  assert (column_field (name +:+ "_id") = column_field name) as Hsame.
  { rewrite column_field_app_id. unfold column_field. rewrite Hplain.
    reflexivity. }
  split; [exact Hsame|]. unfold importer_cell. rewrite Hsame. reflexivity.
Qed.

(** X2: the keyword a column is filed under is what is left of the
    column name when a tail is cut off: nothing when [_id] does not
    occur in the name, and its last three characters, whatever they
    are, when [_id] occurs anywhere in it. *)
Theorem column_field_shape (field : string) :
  exists tail,
    field = column_field field +:+ tail /\
    Py.len tail = (if Py.contains "_id" field then 3 else 0) /\
    (Py.contains "_id" field = false -> tail = "").
Proof.
  unfold column_field. destruct (Py.contains "_id" field) eqn:Hin.
  - unfold Py.drop_last.
    destruct (drop_chars_split 3
                (reverse (String.list_ascii_of_string field)))
      as (removed & Hbytes & Hcount).
    exists (String.string_of_list_ascii (reverse removed)).
    split; [|split; [|discriminate]].
    + rewrite <- string_of_list_ascii_app, <- reverse_app, <- Hbytes.
      rewrite reverse_involutive.
      symmetry. apply String.string_of_list_ascii_of_string.
    + unfold Py.len. rewrite String.list_ascii_of_string_of_list_ascii.
      rewrite characters_reverse, Hcount, characters_reverse.
      destruct (contains_split _ _ Hin) as (a & b & ->).
      rewrite !list_ascii_of_string_app, !characters_app.
      change (Py.characters (String.list_ascii_of_string "_id")) with 3. lia.
  - exists "". split; [|split; [reflexivity|reflexivity]].
    clear. induction field as [|c field IH]; [reflexivity|].
    change (String c field = String c (field +:+ "")). f_equal. exact IH.
Qed.

(** A name that ends in a letter of two bytes: the cut takes the
    letter, not half of it. *)
Example column_field_two_byte_letter :
  column_field "x_idé" = "x_" /\ column_field "née_id" = "née".
Proof. split; reflexivity. Qed.

(** The loop over the cells of a row, cut in two. *)
Lemma importer_row_app (st : Store) (model : Model) (items items' : Row)
    (kwargs : gmap string (Val Obj)) :
  importer_row st model (items ++ items') kwargs =
  (kwargs' ← importer_row st model items kwargs;
   importer_row st model items' kwargs').
Proof.
  revert kwargs. induction items as [|[f v] items IH]; intros kwargs;
    [reflexivity|].
  simpl. destruct (importer_cell st model f v) as [e|kv]; [reflexivity|].
  simpl. apply IH.
Qed.

(** X3: columns that are filed under the same keyword overwrite each
    other, and the last one wins: whatever the columns before it, the
    keyword of the last column of a row holds the value of that column's
    cell. *)
Theorem importer_row_last_wins (st : Store) (model : Model) (items : Row)
    (field value : string) (kwargs kwargs' : gmap string (Val Obj)) :
  importer_row st model (items ++ [(field, value)]) kwargs = inr kwargs' ->
  exists val,
    importer_cell st model field value = inr (column_field field, val) /\
    kwargs' !! column_field field = Some val.
Proof.
  rewrite importer_row_app.
  destruct (importer_row st model items kwargs) as [e|kw1]; [discriminate|].
  simpl.
  destruct (importer_cell st model field value) as [e|[k val]] eqn:Hcell;
    [discriminate|].
  simpl. intros [= <-].
  pose proof (importer_cell_key _ _ _ _ _ Hcell) as Hk. simpl in Hk.
  subst k. exists val. split; [reflexivity|]. apply lookup_insert_eq.
Qed.

(** X4: the keywords handed to the model constructor are those already
    set and the stripped names of the columns of the row - no column is
    dropped and nothing else is added. *)
Theorem importer_row_keywords (st : Store) (model : Model) (items : Row)
    (kwargs kwargs' : gmap string (Val Obj)) :
  importer_row st model items kwargs = inr kwargs' ->
  dom kwargs' = dom kwargs ∪ list_to_set (column_field <$> items.*1).
Proof.
  revert kwargs. induction items as [|[f v] items IH]; intros kwargs.
  - simpl. intros [= <-]. rewrite (right_id_L ∅ (∪)). reflexivity.
  - simpl. destruct (importer_cell st model f v) as [e|kv] eqn:Hcell;
      [discriminate|].
    simpl. intros Hrest. rewrite (IH _ Hrest), dom_insert_L.
    rewrite (importer_cell_key _ _ _ _ _ Hcell).
    rewrite (comm_L (∪) {[column_field f]} (dom kwargs)).
    rewrite <- (assoc_L (∪)). reflexivity.
Qed.

End ImporterCells.

Lemma importer_cell_suffix_optional_witness :
  Py.contains "_id" "title" = false /\
  ImportCsv.importer_cell (H := Fixtures.ListORM) Fixtures.store0
    ImportCsv.Review ("title" +:+ "_id") "1"
  = ImportCsv.importer_cell (H := Fixtures.ListORM) Fixtures.store0
      ImportCsv.Review "title" "1".
Proof.
  split; [reflexivity|].
  exact (proj2 (importer_cell_suffix_optional (H := Fixtures.ListORM)
                  Fixtures.store0 ImportCsv.Review "title" "1" eq_refl)).
Defined.

Lemma importer_row_last_wins_witness :
  let row := [("score", "1")] ++ [("score_id", "7")] in
  let kwargs' : gmap string (ImportCsv.Val Fixtures.Row) :=
    <["score" := ImportCsv.Plain "7"]> ∅ in
  ImportCsv.importer_row (H := Fixtures.ListORM) Fixtures.store0
    ImportCsv.Review row ∅ = inr kwargs' /\
  (exists val,
     ImportCsv.importer_cell (H := Fixtures.ListORM) Fixtures.store0
       ImportCsv.Review "score_id" "7" = inr ("score", val) /\
     kwargs' !! "score" = Some val).
Proof.
  intros row kwargs'.
  assert (ImportCsv.importer_row (H := Fixtures.ListORM) Fixtures.store0
            ImportCsv.Review row ∅ = inr kwargs') as Hrow.
  { reflexivity. }
  split; [exact Hrow|].
  exact (importer_row_last_wins (H := Fixtures.ListORM) Fixtures.store0
           ImportCsv.Review [("score", "1")] "score_id" "7" ∅ kwargs' Hrow).
Defined.

Lemma importer_row_keywords_witness :
  let kwargs' : gmap string (ImportCsv.Val Fixtures.Row) :=
    <["score" := ImportCsv.Plain "7"]> (<["id" := ImportCsv.Plain "1"]> ∅) in
  ImportCsv.importer_row (H := Fixtures.ListORM) Fixtures.store0
    ImportCsv.Review [("id", "1"); ("score", "7")] ∅ = inr kwargs' /\
  dom kwargs' = (∅ ∪ list_to_set ["id"; "score"] : gset string).
Proof.
  intros kwargs'.
  assert (ImportCsv.importer_row (H := Fixtures.ListORM) Fixtures.store0
            ImportCsv.Review [("id", "1"); ("score", "7")] ∅ = inr kwargs')
    as Hrow by reflexivity.
  split; [exact Hrow|].
  pose proof (importer_row_keywords (H := Fixtures.ListORM) Fixtures.store0
                ImportCsv.Review _ ∅ kwargs' Hrow) as Hdom.
  rewrite dom_empty_L in Hdom. exact Hdom.
Defined.

Section ImporterFiles.
Import ImportCsv.
Context `{ORM}.
Variable files : Files.

(** The loop over the rows appends one object per row, in row order. *)
Lemma importer_rows_objects (st : Store) (model : Model) (data : list Row)
    (models models' : list Obj) :
  importer_rows st model data models = inr models' ->
  exists new,
    models' = models ++ new /\
    Forall2 (fun row o =>
               exists kwargs, importer_row st model row ∅ = inr kwargs /\
                              model_init model kwargs = inr o) data new.
Proof.
  revert models. induction data as [|row data IH]; intros models; simpl.
  - intros [= <-]. exists []. rewrite app_nil_r. split; constructor.
  - destruct (importer_row st model row ∅) as [e|kwargs] eqn:Hrow;
      [discriminate|].
    simpl. destruct (model_init model kwargs) as [e|o] eqn:Hinit;
      [discriminate|].
    simpl. intros Hrest. destruct (IH _ Hrest) as (new & -> & Hall).
    exists (o :: new). rewrite <- app_assoc. split; [reflexivity|].
    constructor; [eauto|exact Hall].
Qed.

(** An import that raises leaves the database and the output alone. *)
Lemma importer_raise_unchanged (csv_file : string) (model : Model)
    (w w' : World) (e : exn) :
  importer files csv_file model w = (w', inl e) -> w' = w.
Proof.
  unfold importer. destruct (files !! _) as [data|]; [|congruence].
  destruct (importer_rows _ _ _ _) as [e1|models]; [congruence|].
  destruct (bulk_create _ _ _) as [e2|st']; [congruence|discriminate].
Qed.

Lemma dict_get_fst {V} (d : list (string * V)) (k : string) (v : V) :
  dict_get d k = Some v -> k ∈ d.*1.
Proof.
  induction d as [|[k' v'] d IH]; simpl; [discriminate|].
  destruct (String.eqb k' k) eqn:Hk.
  - apply String.eqb_eq in Hk as ->. intros _. left.
  - intros Hrest. right. exact (IH Hrest).
Qed.

(** X5: an import that succeeds read its file, built one object per row,
    in row order, each from the keywords of its row, handed exactly
    these objects to one [bulk_create] on the database as it was before
    the file, and printed one line. *)
Theorem importer_success (csv_file : string) (model : Model)
    (w w' : World) :
  importer files csv_file model w = (w', inr ()) ->
  exists data models,
    files !! (CSV_ROOT +:+ csv_file) = Some data /\
    Forall2 (fun row o =>
               exists kwargs,
                 importer_row (store w) model row ∅ = inr kwargs /\
                 model_init model kwargs = inr o) data models /\
    bulk_create (store w) model models = inr (store w') /\
    stdout w' = stdout w ++ [success_message csv_file].
Proof.
  unfold importer. destruct (files !! _) as [data|]; [|discriminate].
  destruct (importer_rows _ _ _ _) as [e|models] eqn:Hrows; [discriminate|].
  destruct (bulk_create _ _ _) as [e|st'] eqn:Hbulk; [discriminate|].
  intros [= <-]. exists data, models.
  destruct (importer_rows_objects _ _ _ _ _ Hrows) as (new & -> & Hall).
  split; [reflexivity|]. split; [exact Hall|]. split; [exact Hbulk|].
  reflexivity.
Qed.

(** X6: there is no transaction across files.  When the names before a
    file went through and the import of that file raises, the run ends
    with that exception in the state the earlier files left: they stay
    imported, and the names after it are not looked at. *)
Theorem handle_first_failure (pre post : list string) (name : string)
    (model : Model) (w w1 w2 : World) (e : exn) :
  handle_named files pre w = (w1, inr ()) ->
  dict_get FILE_MODEL name = Some model ->
  importer files name model w1 = (w2, inl e) ->
  handle files (pre ++ name :: post) w = (w1, inl e).
Proof.
  intros Hpre Hmodel Himp.
  replace (handle files (pre ++ name :: post) w)
    with (handle_named files (pre ++ name :: post) w)
    by (destruct pre; reflexivity).
  rewrite handle_named_app, Hpre. cbn [handle_named].
  rewrite bool_decide_eq_true_2 by exact (dict_get_fst _ _ _ Hmodel).
  rewrite Hmodel, Himp.
  rewrite (importer_raise_unchanged _ _ _ _ _ Himp). reflexivity.
Qed.

Lemma handle_all_named (items : list (string * Model)) (w : World) :
  Forall (fun item => item.1 ∈ FILE_MODEL_keys /\
                      dict_get FILE_MODEL item.1 = Some item.2) items ->
  handle_all files items w = handle_named files items.*1 w.
Proof.
  revert w. induction items as [|[name model] items IH]; intros w Hitems;
    [reflexivity|].
  apply Forall_cons in Hitems as [[Hkey Hget] Hitems].
  rewrite fmap_cons. cbn [handle_all handle_named fst snd] in *.
  rewrite bool_decide_eq_true_2 by exact Hkey. rewrite Hget.
  destruct (importer files name model w) as [w1 [e|u]]; [reflexivity|].
  exact (IH w1 Hitems).
Qed.

(** X7: a run without names is the run that names the six registered
    files in the order of [FILE_MODEL]: users, category, genre, titles,
    review, comments. *)
Theorem handle_no_names (w : World) :
  handle files [] w =
  handle files
    ["users.csv"; "category.csv"; "genre.csv"; "titles.csv"; "review.csv";
     "comments.csv"] w.
Proof.
  change (handle_all files FILE_MODEL w
          = handle_named files FILE_MODEL.*1 w).
  apply handle_all_named. compute_done.
Qed.

(** X8: a run that ends without an exception, with names or without,
    has printed one line per file imported, in the order of the
    import, and nothing else. *)
Theorem handle_stdout (names : list string) (w w' : World) :
  handle files names w = (w', inr ()) ->
  stdout w' = stdout w ++
    (success_message <$>
       match names with [] => FILE_MODEL_keys | _ :: _ => names end).
Proof.
  destruct names as [|name names]; cbn [handle].
  - rewrite handle_all_named by compute_done.
    intros Hrun. exact (proj2 (handle_named_completed _ _ _ _ Hrun)).
  - intros Hrun. exact (proj2 (handle_named_completed _ _ _ _ Hrun)).
Qed.

End ImporterFiles.

Lemma importer_success_witness :
  exists w',
    ImportCsv.importer (H := Fixtures.ListORM) Fixtures.files0 "review.csv"
      ImportCsv.Review Fixtures.world0 = (w', inr ()) /\
    ImportCsv.stdout w' = [ImportCsv.success_message "review.csv"].
Proof.
  destruct (ImportCsv.importer (H := Fixtures.ListORM) Fixtures.files0
              "review.csv" ImportCsv.Review Fixtures.world0)
    as [w' r] eqn:Himp.
  assert (r = inr ()) as -> by (vm_compute in Himp; congruence).
  exists w'. split; [reflexivity|].
  destruct (importer_success (H := Fixtures.ListORM) Fixtures.files0
              "review.csv" ImportCsv.Review Fixtures.world0 w' Himp)
    as (data & models & _ & _ & _ & Hout).
  exact Hout.
Defined.

Lemma handle_first_failure_witness :
  exists w1 e,
    ImportCsv.handle_named (H := Fixtures.ListORM) Fixtures.files0
      ["titles.csv"] Fixtures.world0 = (w1, inr ()) /\
    ImportCsv.importer (H := Fixtures.ListORM) Fixtures.files0 "users.csv"
      ImportCsv.User w1 = (w1, inl e) /\
    ImportCsv.handle (H := Fixtures.ListORM) Fixtures.files0
      (["titles.csv"] ++ "users.csv" :: ["review.csv"]) Fixtures.world0
    = (w1, inl e).
Proof.
  destruct (ImportCsv.handle_named (H := Fixtures.ListORM) Fixtures.files0
              ["titles.csv"] Fixtures.world0) as [w1 r] eqn:Hpre.
  assert (r = inr ()) as -> by (vm_compute in Hpre; congruence).
  exists w1, (ImportCsv.FileNotFoundError "static/data/users.csv").
  assert (ImportCsv.importer (H := Fixtures.ListORM) Fixtures.files0
            "users.csv" ImportCsv.User w1
          = (w1, inl (ImportCsv.FileNotFoundError "static/data/users.csv")))
    as Himp by reflexivity.
  split; [reflexivity|]. split; [exact Himp|].
  exact (handle_first_failure (H := Fixtures.ListORM) Fixtures.files0
           ["titles.csv"] ["review.csv"] "users.csv" ImportCsv.User
           Fixtures.world0 w1 w1 _ Hpre eq_refl Himp).
Defined.

Lemma handle_stdout_witness :
  exists w',
    ImportCsv.handle (H := Fixtures.ListORM) Fixtures.files0
      ["titles.csv"; "review.csv"] Fixtures.world0 = (w', inr ()) /\
    ImportCsv.stdout w' =
      [ImportCsv.success_message "titles.csv";
       ImportCsv.success_message "review.csv"].
Proof.
  destruct (ImportCsv.handle (H := Fixtures.ListORM) Fixtures.files0
              ["titles.csv"; "review.csv"] Fixtures.world0)
    as [w' r] eqn:Hrun.
  assert (r = inr ()) as -> by (vm_compute in Hrun; congruence).
  exists w'. split; [reflexivity|].
  exact (handle_stdout (H := Fixtures.ListORM) Fixtures.files0
           ["titles.csv"; "review.csv"] Fixtures.world0 w' Hrun).
Defined.

(** ** More on the title queryset *)

Section QuerysetOrder.
Import Views.

(** X9: [order_by("id")] and the grouping of [annotate]: the queryset
    holds each stored title exactly once, however many reviews it has,
    in ascending order of id. *)
Theorem TitleViewSet_queryset_order (db : DB) :
  (TitleViewSet_queryset db).*1 ≡ₚ titles db /\
  StronglySorted (fun a b => (title_id a.1 <= title_id b.1)%Z)
    (TitleViewSet_queryset db).
Proof.
  unfold TitleViewSet_queryset. split.
  - rewrite merge_sort_Permutation. unfold annotate_rating.
    rewrite <- list_fmap_compose.
    replace (titles db) with (id <$> titles db) at 2 by apply list_fmap_id.
    reflexivity.
  - assert (Transitive by_id) as Htrans.
    { intros a b c. unfold by_id. lia. }
    assert (Total by_id) as Htotal.
    { intros a b. unfold by_id. lia. }
    exact (StronglySorted_merge_sort by_id _).
Qed.

End QuerysetOrder.

(** ** More on reviews and comments *)

Section Nesting.
Import Views.

(** A review that was created: the title found, and the row appended. *)
Lemma perform_create_inv (kw_title_id : Z) (request_user : User)
    (body : ReviewData) (db db' : DB) :
  ReviewViewSet_perform_create kw_title_id request_user body db = inr db' ->
  exists title,
    ReviewViewSet_get_title kw_title_id db = inr title /\
    title_id title = kw_title_id /\
    db' = set_reviews
            (reviews db ++
             [mkReview (next_id (review_id <$> reviews db)) kw_title_id
                (user_id request_user) (rd_text body) (rd_score body)]) db.
Proof.
  unfold ReviewViewSet_perform_create.
  destruct (ReviewViewSet_get_title kw_title_id db) as [e|title] eqn:Ht;
    [discriminate|].
  pose proof (get_object_or_404_found _ _ _ Ht) as [_ Hid].
  simpl. unfold Review_objects_create, Review_insert.
  destruct (decide _) as [|_]; [discriminate|].
  simpl. intros [= <-]. exists title. rewrite Hid. auto.
Qed.

(** X11: listings are scoped to the parent of the path.  The queryset
    of the review views holds exactly the stored reviews of the title of
    the path, and that of the comment views exactly the stored comments
    of the review of the path. *)
Theorem querysets_scoped (db : DB) (kw_title_id kw_review_id : Z) :
  (forall queryset,
     ReviewViewSet_get_queryset kw_title_id db = inr queryset ->
     forall r, r ∈ queryset <->
               r ∈ reviews db /\ review_title r = kw_title_id) /\
  (forall queryset,
     CommentViewSet_get_queryset kw_title_id kw_review_id db
       = inr queryset ->
     forall c, c ∈ queryset <->
               c ∈ comments db /\ comment_review c = kw_review_id).
Proof.
  split.
  - intros queryset. unfold ReviewViewSet_get_queryset.
    destruct (ReviewViewSet_get_title kw_title_id db) as [e|title] eqn:Ht;
      [discriminate|].
    apply get_object_or_404_found in Ht as [_ Hid].
    simpl. intros [= <-] r. rewrite list_elem_of_filter, Hid. tauto.
  - intros queryset. unfold CommentViewSet_get_queryset.
    destruct (CommentViewSet_get_review kw_title_id kw_review_id db)
      as [e|review] eqn:Hr; [discriminate|].
    apply get_object_or_404_found in Hr as [_ [_ Hid]].
    simpl. intros [= <-] c. rewrite list_elem_of_filter, Hid. tauto.
Qed.

(** X12: a review cannot be reached through another title.  With unique
    ids, asking for a stored review under a title id that is not its own
    is answered 404, whatever the method and whoever asks. *)
Theorem ReviewViewSet_get_object_other_title (db : DB) (r : Review)
    (kw_title_id : Z) (method : Method) (request_user : Requester) :
  NoDup (title_id <$> titles db) ->
  NoDup (review_id <$> reviews db) ->
  r ∈ reviews db ->
  review_title r <> kw_title_id ->
  ReviewViewSet_get_object method request_user kw_title_id (review_id r) db
  = inl Http404.
Proof.
  intros Htitles Hreviews Hr Hother.
  unfold ReviewViewSet_get_object, ReviewViewSet_get_queryset,
    ReviewViewSet_get_title, get_object_or_404 at 2.
  lazymatch goal with
  | |- context [@objects_get _ ?P ?D (titles db)] =>
      pose proof (@objects_get_unique _ _ title_id kw_title_id P D
                    (fun _ Ht => Ht) (titles db) Htitles) as Hget;
      destruct (@objects_get _ P D (titles db)) as [title| |]
  end; [|reflexivity|destruct Hget].
  destruct Hget as [_ Hid]. simpl.
  rewrite get_object_or_404_missing; [reflexivity|].
  intros r' Hr' Hpk. apply list_elem_of_filter in Hr' as [Htitle Hr'].
  assert (r' = r) as ->.
  { exact (NoDup_key_inj review_id (reviews db) r' r Hreviews Hr' Hr Hpk). }
  congruence.
Qed.

Lemma same_rows_refl {A} (x : result (list A)) : same_rows x x.
Proof. destruct x; simpl; reflexivity. Qed.

(** X13: create, then list.  After a review was created under a title,
    the listing of that title has the rows it had and one more, a
    review of that title carrying the requester as author and the body
    given; the listings of all other titles have the rows they had.
    Nothing is said of the order of the rows. *)
Theorem ReviewViewSet_create_then_list (kw_title_id : Z)
    (request_user : User) (body : ReviewData) (db db' : DB) :
  ReviewViewSet_perform_create kw_title_id request_user body db = inr db' ->
  exists queryset queryset' r,
    ReviewViewSet_get_queryset kw_title_id db = inr queryset /\
    ReviewViewSet_get_queryset kw_title_id db' = inr queryset' /\
    queryset' ≡ₚ r :: queryset /\
    review_title r = kw_title_id /\
    review_author r = user_id request_user /\
    review_text r = rd_text body /\ review_score r = rd_score body /\
    (forall other, other <> kw_title_id ->
       same_rows (ReviewViewSet_get_queryset other db')
                 (ReviewViewSet_get_queryset other db)).
Proof.
  intros Hcreate.
  destruct (perform_create_inv _ _ _ _ _ Hcreate) as (title & Ht & Hid & ->).
  unfold ReviewViewSet_get_queryset.
  change (ReviewViewSet_get_title kw_title_id (set_reviews _ db))
    with (ReviewViewSet_get_title kw_title_id db).
  rewrite Ht. simpl. do 3 eexists. split; [reflexivity|].
  split; [reflexivity|]. split.
  { rewrite filter_app, filter_cons_True by (simpl; congruence).
    rewrite filter_nil. symmetry. apply Permutation_cons_append. }
  repeat split. intros other Hother.
  change (ReviewViewSet_get_title other (set_reviews ?rs db))
    with (ReviewViewSet_get_title other db).
  destruct (ReviewViewSet_get_title other db) as [e|title'] eqn:Ht';
    [reflexivity|].
  apply get_object_or_404_found in Ht' as [_ Hid'].
  simpl. rewrite filter_app, filter_cons_False by (simpl; congruence).
  rewrite filter_nil, app_nil_r. reflexivity.
Qed.

(** X14: the same for comments.  After a comment was created under a
    review, the listing of that review has the rows it had and one
    more, a comment on that review carrying the requester as author and
    the text given; users, titles and reviews are as before, and the
    listings of all other reviews have the rows they had.  Nothing is
    said of the order of the rows. *)
Theorem CommentViewSet_create_then_list (kw_title_id kw_review_id : Z)
    (request_user : User) (text : string) (db db' : DB) :
  CommentViewSet_perform_create kw_title_id kw_review_id request_user
    text db = inr db' ->
  exists queryset queryset' c,
    CommentViewSet_get_queryset kw_title_id kw_review_id db
      = inr queryset /\
    CommentViewSet_get_queryset kw_title_id kw_review_id db'
      = inr queryset' /\
    queryset' ≡ₚ c :: queryset /\
    comment_review c = kw_review_id /\
    comment_author c = user_id request_user /\
    comment_text c = text /\
    users db' = users db /\ titles db' = titles db /\
    reviews db' = reviews db /\
    (forall other_title other, other <> kw_review_id ->
       same_rows (CommentViewSet_get_queryset other_title other db')
                 (CommentViewSet_get_queryset other_title other db)).
Proof.
  unfold CommentViewSet_perform_create.
  destruct (CommentViewSet_get_review kw_title_id kw_review_id db)
    as [e|review] eqn:Hr; [discriminate|].
  pose proof (get_object_or_404_found _ _ _ Hr) as [_ [_ Hid]].
  simpl. intros [= <-]. unfold CommentViewSet_get_queryset.
  change (CommentViewSet_get_review kw_title_id kw_review_id
            (Comment_objects_create review request_user text db))
    with (CommentViewSet_get_review kw_title_id kw_review_id db).
  rewrite Hr. simpl. do 3 eexists. split; [reflexivity|].
  split; [reflexivity|]. split.
  { rewrite filter_app, filter_cons_True by reflexivity.
    rewrite filter_nil. symmetry. apply Permutation_cons_append. }
  split; [exact Hid|].
  repeat split. intros other_title other Hother.
  change (CommentViewSet_get_review other_title other
            (Comment_objects_create review request_user text db))
    with (CommentViewSet_get_review other_title other db).
  destruct (CommentViewSet_get_review other_title other db)
    as [e|review'] eqn:Hr'; [reflexivity|].
  apply get_object_or_404_found in Hr' as [_ [_ Hid']].
  simpl. rewrite filter_app, filter_cons_False by (simpl; congruence).
  rewrite filter_nil, app_nil_r. reflexivity.
Qed.

(** X15: the rating follows the reviews.  After a review was created
    under a title, the next read of the queryset rates that title from
    its earlier scores and the new one - their sum divided by their
    number in double precision - and every other title as before. *)
Theorem rating_after_create (kw_title_id : Z) (request_user : User)
    (body : ReviewData) (db db' : DB) (t : Title)
    (rating : option PrimFloat.float) :
  NoDup (title_id <$> titles db) ->
  ReviewViewSet_perform_create kw_title_id request_user body db = inr db' ->
  (t, rating) ∈ TitleViewSet_queryset db' ->
  rating =
    rounded_mean (if decide (title_id t = kw_title_id)
                  then scores_of t db ++ [rd_score body]
                  else scores_of t db).
Proof.
  intros Hnd Hcreate Hin.
  destruct (perform_create_inv _ _ _ _ _ Hcreate) as (title & _ & _ & ->).
  apply queryset_rating_exact in Hin as [_ ->]; [|exact Hnd].
  rewrite Avg_scores. f_equal. unfold scores_of. simpl.
  rewrite filter_app, fmap_app.
  destruct (decide (title_id t = kw_title_id)) as [Ht|Ht].
  - rewrite filter_cons_True by (simpl; congruence).
    rewrite filter_nil. reflexivity.
  - rewrite filter_cons_False by (simpl; congruence).
    rewrite filter_nil. simpl. rewrite app_nil_r. reflexivity.
Qed.

End Nesting.

Lemma querysets_scoped_witness :
  Views.ReviewViewSet_get_queryset 1 Fixtures.db0
    = inr [Fixtures.alice_on_solaris; Fixtures.bob_on_solaris] /\
  (Fixtures.bob_on_solaris
     ∈ [Fixtures.alice_on_solaris; Fixtures.bob_on_solaris] <->
   Fixtures.bob_on_solaris ∈ Views.reviews Fixtures.db0 /\
   Views.review_title Fixtures.bob_on_solaris = 1%Z).
Proof.
  split; [reflexivity|].
  exact (proj1 (querysets_scoped Fixtures.db0 1 1) _ eq_refl
           Fixtures.bob_on_solaris).
Defined.

Lemma ReviewViewSet_get_object_other_title_witness :
  NoDup (Views.title_id <$> Views.titles Fixtures.db0) /\
  NoDup (Views.review_id <$> Views.reviews Fixtures.db0) /\
  Fixtures.alice_on_solaris ∈ Views.reviews Fixtures.db0 /\
  Views.review_title Fixtures.alice_on_solaris <> 2%Z /\
  Views.ReviewViewSet_get_object Views.GET (Some Fixtures.alice) 2 1
    Fixtures.db0 = inl Views.Http404.
Proof.
  assert (NoDup (Views.title_id <$> Views.titles Fixtures.db0)) as Htitles
    by compute_done.
  assert (NoDup (Views.review_id <$> Views.reviews Fixtures.db0))
    as Hreviews by compute_done.
  assert (Fixtures.alice_on_solaris ∈ Views.reviews Fixtures.db0) as Hin
    by left.
  assert (Views.review_title Fixtures.alice_on_solaris <> 2%Z) as Hother
    by discriminate.
  repeat (split; [assumption|]).
  exact (ReviewViewSet_get_object_other_title Fixtures.db0
           Fixtures.alice_on_solaris 2 Views.GET (Some Fixtures.alice)
           Htitles Hreviews Hin Hother).
Defined.

Lemma ReviewViewSet_create_then_list_witness :
  exists db' queryset' r,
    Views.ReviewViewSet_perform_create 1 Fixtures.carol
      (Views.mkReviewData "late" 5) Fixtures.db0 = inr db' /\
    Views.ReviewViewSet_get_queryset 1 db' = inr queryset' /\
    queryset' ≡ₚ [r; Fixtures.alice_on_solaris; Fixtures.bob_on_solaris] /\
    Views.review_title r = 1%Z /\ Views.review_author r = 3%Z.
Proof.
  destruct (Views.ReviewViewSet_perform_create 1 Fixtures.carol
              (Views.mkReviewData "late" 5) Fixtures.db0)
    as [e|db'] eqn:Hcreate; [vm_compute in Hcreate; discriminate|].
  destruct (ReviewViewSet_create_then_list _ _ _ _ _ Hcreate)
    as (queryset & queryset' & r & Hbefore & Hafter & Hrows & Htitle
        & Hauthor & _).
  vm_compute in Hbefore. injection Hbefore as <-.
  exists db', queryset', r. auto.
Defined.

Lemma CommentViewSet_create_then_list_witness :
  exists db' queryset' c,
    Views.CommentViewSet_perform_create 1 2 Fixtures.alice "agreed"
      Fixtures.db0 = inr db' /\
    Views.CommentViewSet_get_queryset 1 2 db' = inr queryset' /\
    queryset' ≡ₚ [c] /\
    Views.comment_review c = 2%Z /\
    Views.comment_author c = 1%Z /\ Views.comment_text c = "agreed".
Proof.
  destruct (Views.CommentViewSet_perform_create 1 2 Fixtures.alice "agreed"
              Fixtures.db0) as [e|db'] eqn:Hcreate;
    [vm_compute in Hcreate; discriminate|].
  destruct (CommentViewSet_create_then_list _ _ _ _ _ _ Hcreate)
    as (queryset & queryset' & c & Hbefore & Hafter & Hrows & Hreview
        & Hauthor & Htext & _).
  vm_compute in Hbefore. injection Hbefore as <-.
  exists db', queryset', c. auto 10.
Defined.

Lemma rating_after_create_witness :
  NoDup (Views.title_id <$> Views.titles Fixtures.db0) /\
  (exists db',
     Views.ReviewViewSet_perform_create 1 Fixtures.carol
       (Views.mkReviewData "fine" 4) Fixtures.db0 = inr db' /\
     (Fixtures.solaris, Views.rounded_mean ([7; 10] ++ [4])%Z)
       ∈ Views.TitleViewSet_queryset db').
Proof.
  assert (NoDup (Views.title_id <$> Views.titles Fixtures.db0)) as Hnd
    by compute_done.
  split; [exact Hnd|].
  destruct (Views.ReviewViewSet_perform_create 1 Fixtures.carol
              (Views.mkReviewData "fine" 4) Fixtures.db0)
    as [e|db'] eqn:Hcreate; [vm_compute in Hcreate; discriminate|].
  exists db'. split; [reflexivity|].
  assert (exists rating,
            (Fixtures.solaris, rating) ∈ Views.TitleViewSet_queryset db')
    as [rating Hin].
  { vm_compute in Hcreate. injection Hcreate as <-. eexists.
    vm_compute. left. }
  rewrite (rating_after_create 1 Fixtures.carol
             (Views.mkReviewData "fine" 4) Fixtures.db0 db'
             Fixtures.solaris rating Hnd Hcreate Hin) in Hin.
  exact Hin.
Defined.

(** ** More on sign-up *)

Section SignUpEffects.
Import Views.
Context `{Tokens} `{Serializers}.

Lemma objects_get_Found {A} (P : A -> Prop) `{forall x, Decision (P x)}
    (table : list A) (x : A) :
  objects_get P table = Found x -> x ∈ table /\ P x.
Proof.
  unfold objects_get.
  destruct (filter P table) as [|y [|z l]] eqn:Hf; try discriminate.
  intros [= ->].
  assert (x ∈ filter P table) as Hx by (rewrite Hf; left).
  apply list_elem_of_filter in Hx as [HP Hx]. auto.
Qed.

(** The two ways a sign-up can end. *)
Lemma SignUpView_post_cases (request_data : RequestData) (db db' : DB)
    (response : Response) :
  SignUpView_post request_data db = (db', response) ->
  (db' = db /\ status response <> HTTP_200_OK) \/
  (exists u,
     status response = HTTP_200_OK /\
     db' = send_code u (mkDB (users db') (titles db) (reviews db)
                          (comments db) (outbox db)) /\
     u ∈ users db' /\
     (users db' = users db \/ users db' = users db ++ [u])).
Proof.
  unfold SignUpView_post.
  destruct (GetCodeSerializer request_data) as [data|];
    [|intros [= <- <-]; left; split; [reflexivity|discriminate]].
  destruct (objects_get _ (users db)) as [x| |] eqn:Hget.
  - apply objects_get_Found in Hget as [Hx _].
    intros [= <- <-]. right. exists x. simpl. auto.
  - destruct (SignUpSerializer (users db) request_data) as [data'|];
      [|intros [= <- <-]; left; split; [reflexivity|discriminate]].
    simpl. intros [= <- <-]. right. eexists. simpl.
    split; [reflexivity|]. split; [reflexivity|].
    split; [|right; reflexivity].
    apply elem_of_app. right. left.
  - intros [= <- <-]. left. split; [reflexivity|discriminate].
Qed.

(** X16: what a sign-up does to the store.  It never touches titles,
    reviews or comments and never changes or removes a user; it adds at
    most one.  Answered 200, it has sent exactly one mail, to the
    address stored for a user of the store, with a code made for that
    user; answered 400, it has left the store - users and mails - as it
    was. *)
Theorem SignUpView_post_effects (request_data : RequestData) (db : DB) :
  let db' := (SignUpView_post request_data db).1 in
  let response := (SignUpView_post request_data db).2 in
  titles db' = titles db /\ reviews db' = reviews db /\
  comments db' = comments db /\
  users db `prefix_of` users db' /\
  length (users db') <= S (length (users db)) /\
  (status response = HTTP_200_OK ->
   exists u, u ∈ users db' /\
     outbox db' = outbox db ++
       [mkMail "Api_Yamdb confirmation_code"
          ("confirmation_code: " +:+ make_token u) CODE_EMAIL [email u]]) /\
  (status response = HTTP_400_BAD_REQUEST -> db' = db).
Proof.
  intros db' response.
  destruct (SignUpView_post request_data db) as [db1 resp] eqn:Hpost.
  subst db' response. cbn [fst snd].
  destruct (SignUpView_post_cases _ _ _ _ Hpost)
    as [[-> Hstatus]|(u & Hstatus & Hdb & Hu & Husers)].
  - repeat split; try reflexivity; [lia|contradiction].
  - rewrite Hdb. simpl. repeat split.
    + destruct Husers as [->| ->]; [reflexivity|].
      apply prefix_app_r. reflexivity.
    + destruct Husers as [->| ->]; [lia|].
      rewrite length_app. simpl. lia.
    + intros _. exists u. split; [exact Hu|reflexivity].
    + rewrite Hstatus. discriminate.
Qed.

(** X17: sign up, then log in.  When a made code checks for the user it
    was made for, the code mailed by a sign-up answered 200 is good for
    a token: a token request with the name of that user and that code,
    against the store the sign-up left (names unique), is answered 201
    with the token of the user. *)
Theorem signup_then_token (request_data : RequestData) (db db' : DB)
    (response : Response) :
  (forall u, check_token u (make_token u) = true) ->
  SignUpView_post request_data db = (db', response) ->
  status response = HTTP_200_OK ->
  NoDup (username <$> users db') ->
  exists u,
    u ∈ users db' /\
    last (outbox db') =
      Some (mkMail "Api_Yamdb confirmation_code"
              ("confirmation_code: " +:+ make_token u) CODE_EMAIL
              [email u]) /\
    (forall token_request,
       GetJWTokenSerializer token_request
         = Some (mkTokenData (username u) (make_token u)) ->
       GetJWTokenView_post token_request db'
       = mkResponse HTTP_201_CREATED [("token", AccessToken_for_user u)]).
Proof.
  intros Hlaw Hpost Hstatus Hnd.
  destruct (SignUpView_post_cases _ _ _ _ Hpost)
    as [[_ Hno]|(u & _ & Hdb & Hu & _)]; [contradiction|].
  exists u. split; [exact Hu|]. split.
  { rewrite Hdb. simpl. apply last_snoc. }
  intros token_request Hvalid. unfold GetJWTokenView_post.
  rewrite Hvalid. cbn [td_username td_confirmation_code].
  lazymatch goal with
  | |- context [@objects_get _ ?P ?D (users db')] =>
      pose proof (@objects_get_unique _ _ username (username u) P D
                    (fun _ Hx => Hx) (users db') Hnd) as Hget;
      destruct (@objects_get _ P D (users db')) as [x| |]
  end.
  - destruct Hget as [Hx Hname].
    assert (x = u) as ->.
    { exact (NoDup_key_inj username (users db') x u Hnd Hx Hu Hname). }
    rewrite Hlaw. reflexivity.
  - destruct (Hget u Hu eq_refl).
  - destruct Hget.
Qed.

End SignUpEffects.

Lemma SignUpView_post_effects_witness :
  let request_data : Views.RequestData :=
    <["username" := "dave"]> (<["email" := "dave@example.org"]> ∅) in
  let result :=
    Views.SignUpView_post (H := Fixtures.DemoTokens)
      (H0 := Fixtures.SpecSerializers) request_data Fixtures.db0 in
  let refused :=
    Views.SignUpView_post (H := Fixtures.DemoTokens)
      (H0 := Fixtures.SpecSerializers) ∅ Fixtures.db0 in
  Views.status result.2 = 200 /\
  Views.users Fixtures.db0 `prefix_of` Views.users result.1 /\
  (exists u, u ∈ Views.users result.1 /\
     Views.outbox result.1 =
       [Views.mkMail "Api_Yamdb confirmation_code"
          ("confirmation_code: " +:+ Fixtures.code_of u) Views.CODE_EMAIL
          [Views.email u]]) /\
  Views.status refused.2 = 400 /\ refused.1 = Fixtures.db0.
Proof.
  intros request_data result refused.
  destruct (SignUpView_post_effects (H := Fixtures.DemoTokens)
              (H0 := Fixtures.SpecSerializers) request_data Fixtures.db0)
    as (_ & _ & _ & Hprefix & _ & Hsent & _).
  split; [reflexivity|]. split; [exact Hprefix|].
  split; [exact (Hsent eq_refl)|]. split; [reflexivity|].
  destruct (SignUpView_post_effects (H := Fixtures.DemoTokens)
              (H0 := Fixtures.SpecSerializers) ∅ Fixtures.db0)
    as (_ & _ & _ & _ & _ & _ & Hrefused).
  exact (Hrefused eq_refl).
Defined.

Lemma signup_then_token_witness :
  let request_data : Views.RequestData :=
    <["username" := "dave"]> (<["email" := "dave@example.org"]> ∅) in
  let token_request : Views.RequestData :=
    <["username" := "dave"]>
      (<["confirmation_code" := "code-dave-dave@example.org"]> ∅) in
  let result :=
    Views.SignUpView_post (H := Fixtures.DemoTokens)
      (H0 := Fixtures.SpecSerializers) request_data Fixtures.db0 in
  (forall u, @Views.check_token Fixtures.DemoTokens u
               (@Views.make_token Fixtures.DemoTokens u) = true) /\
  Views.status result.2 = 200 /\
  NoDup (Views.username <$> Views.users result.1) /\
  Views.GetJWTokenView_post (H := Fixtures.DemoTokens)
    (H0 := Fixtures.SpecSerializers) token_request result.1
  = Views.mkResponse 201 [("token", "jwt-dave")].
Proof.
  intros request_data token_request result.
  assert (forall u, @Views.check_token Fixtures.DemoTokens u
                      (@Views.make_token Fixtures.DemoTokens u) = true)
    as Hlaw by (intros u; apply String.eqb_refl).
  assert (NoDup (Views.username <$> Views.users result.1)) as Hnd
    by compute_done.
  split; [exact Hlaw|]. split; [reflexivity|]. split; [exact Hnd|].
  destruct (signup_then_token (H := Fixtures.DemoTokens)
              (H0 := Fixtures.SpecSerializers) request_data Fixtures.db0
              result.1 result.2 Hlaw eq_refl eq_refl Hnd)
    as (u & Hu & Hmail & Htoken).
  assert (u = Views.mkUser 4 "dave" "dave@example.org" Views.USER
                "" "" "" false) as ->.
  { assert (last (Views.outbox result.1) =
            Some (Views.mkMail "Api_Yamdb confirmation_code"
                    "confirmation_code: code-dave-dave@example.org"
                    Views.CODE_EMAIL ["dave@example.org"])) as Hlast
      by reflexivity.
    rewrite Hlast in Hmail. injection Hmail as _ Hto.
    apply (NoDup_key_inj Views.email (Views.users result.1)).
    - compute_done.
    - exact Hu.
    - compute_done.
    - symmetry. exact Hto. }
  exact (Htoken token_request eq_refl).
Defined.

(** ** The profile of the requester *)

Section Profile.
Import Views.
Context `{ProfileSerializer}.

Lemma User_save_rows (u : User) (db : DB) :
  u ∈ users (User_save u db) /\
  (forall v, user_id v <> user_id u ->
             v ∈ users (User_save u db) <-> v ∈ users db).
Proof.
  unfold User_save. cbn [users].
  destruct (decide (user_id u ∈ user_id <$> users db)) as [Hin|Hout].
  - split.
    + apply list_elem_of_fmap in Hin as (w & Hid & Hw).
      apply list_elem_of_fmap. exists w. split; [|exact Hw].
      rewrite decide_True by congruence. reflexivity.
    + intros v Hv. rewrite list_elem_of_fmap. split.
      * intros (w & -> & Hw). destruct (decide _); [contradiction|exact Hw].
      * intros Hin'. exists v. split; [|exact Hin'].
        rewrite decide_False by exact Hv. reflexivity.
  - split.
    + apply elem_of_app. right. left.
    + intros v Hv. rewrite elem_of_app, list_elem_of_singleton.
      split; [intros [Hin| ->]; [exact Hin|contradiction]|auto].
Qed.

(** X18: [PATCH /users/me/] writes one row.  Titles, reviews, comments
    and mails are never touched; an anonymous request is answered 401
    and an invalid body 400, both leaving the store as it was; and an
    answer of 200 shows the instance the serializer made of the
    requester, which is then stored, while every user with another id
    is exactly as before. *)
Theorem UserViewSet_update_profile_effects (request_user : Requester)
    (request_data : RequestData) (db : DB) :
  let db' := (UserViewSet_update_profile request_user request_data db).1 in
  let response :=
    (UserViewSet_update_profile request_user request_data db).2 in
  titles db' = titles db /\ reviews db' = reviews db /\
  comments db' = comments db /\ outbox db' = outbox db /\
  (request_user = None ->
   db' = db /\ status response = HTTP_401_UNAUTHORIZED) /\
  (forall user,
     request_user = Some user ->
     ProfileSerializer_partial (users db) user request_data = None ->
     db' = db /\ status response = HTTP_400_BAD_REQUEST) /\
  (status response <> HTTP_200_OK -> db' = db) /\
  (status response = HTTP_200_OK ->
   exists user validated_data,
     request_user = Some user /\
     ProfileSerializer_partial (users db) user request_data
       = Some validated_data /\
     let user' := ProfileSerializer_update user validated_data in
     response = mkResponse HTTP_200_OK (ProfileSerializer_data user') /\
     user' ∈ users db' /\
     (forall v, user_id v <> user_id user' ->
                v ∈ users db' <-> v ∈ users db)).
Proof.
  intros db' response. subst db' response.
  unfold UserViewSet_update_profile.
  destruct request_user as [user|]; cbn [fst snd].
  - destruct (ProfileSerializer_partial (users db) user request_data)
      as [validated_data|] eqn:Hvalid; cbn [fst snd].
    + repeat (split; [reflexivity|]).
      split; [discriminate|].
      split; [intros user' [= <-] Hnone; rewrite Hvalid in Hnone;
              discriminate|].
      split; [intros Hno; destruct Hno; reflexivity|].
      intros _. exists user, validated_data.
      split; [reflexivity|]. split; [exact Hvalid|].
      split; [reflexivity|]. apply User_save_rows.
    + repeat split; try reflexivity; discriminate.
  - repeat split; try reflexivity; discriminate.
Qed.

End Profile.

Lemma UserViewSet_update_profile_effects_witness :
  let request_data : Views.RequestData := <["bio" := "reader"]> ∅ in
  let result :=
    Views.UserViewSet_update_profile (H := Fixtures.BioProfile)
      (Some Fixtures.alice) request_data Fixtures.db0 in
  let refused :=
    Views.UserViewSet_update_profile (H := Fixtures.BioProfile)
      (Some Fixtures.alice) ∅ Fixtures.db0 in
  Views.status result.2 = 200 /\
  Views.data result.2 = [("username", "alice"); ("bio", "reader")] /\
  (Fixtures.bob ∈ Views.users result.1 <->
   Fixtures.bob ∈ Views.users Fixtures.db0) /\
  refused.1 = Fixtures.db0 /\ Views.status refused.2 = 400.
Proof.
  intros request_data result refused.
  destruct (UserViewSet_update_profile_effects (H := Fixtures.BioProfile)
              (Some Fixtures.alice) request_data Fixtures.db0)
    as (_ & _ & _ & _ & _ & _ & _ & Hok).
  destruct (Hok eq_refl)
    as (user & validated & [= <-] & [= <-] & Hresp & _ & Hothers).
  split; [reflexivity|]. split; [reflexivity|].
  split; [apply Hothers; discriminate|].
  destruct (UserViewSet_update_profile_effects (H := Fixtures.BioProfile)
              (Some Fixtures.alice) ∅ Fixtures.db0)
    as (_ & _ & _ & _ & _ & Hrefused & _).
  exact (Hrefused Fixtures.alice eq_refl eq_refl).
Defined.
